(** * goCacheExample: a read-through / write-through cache over an in-memory store

    A shallow embedding of the Go program (the three variants [main.go],
    [part_000] and [part_001]) and the properties of its repository, load
    generator and benchmark driver.

    Conventions of the embedding.
    - A Go [int] key is a [Z]; keys are only compared, never computed with.
    - A Go [map[int]User] is [option (gmap Z User)]: [None] is the nil map of
      the zero-valued struct (reads miss, writes panic), [Some m] an allocated
      map.  [sync.Map] is usable from its zero value, so it is a [gmap Z User]
      directly; only [User] values are ever stored in it, which is why the
      type assertion [user.(User)] of [getFromCache] cannot fail.
    - Methods on [*UserRepo] are computations in a state monad over the
      struct, with three ways to end: a normal return (with the events the
      call performed), a run-time panic, or blocking for ever on a lock that
      is already held (one thread of control: nobody else can release it).
    - The calls on locks, maps and the logger are recorded as events, in
      program order. *)

From Stdlib Require Import ZArith QArith Qround Floats Uint63 List Lia.
From stdpp Require Import base option list gmap strings pretty.

Local Open Scope Z_scope.
#[local] Set Warnings "-inexact-float".

(** ** Records and constants *)

(** [type User struct { Name string }] *)
Record User : Type := mkUser { Name : string }.

(** The zero value [User{}]. *)
Definition User_zero : User := {| Name := "" |}.

#[global] Instance User_eq_dec : EqDecision User.
Proof. solve_decision. Defined.

Definition foundInCache : string := "found in cache!".
Definition notFoundInCache : string := "not found in cache".
Definition foundInDB : string := "found in db!!".
Definition notFoundInDB : string := "not found in db".
Definition appIsStarted : string := "app is started!".

(** [*log.Logger]: the only logger of the program is the one made by
    [log.New(&a.buf, "", log.LstdFlags)]; the pointer is [None] when nil.  The
    date and time that [LstdFlags] puts before each line are left out. *)
Record Logger : Type := mkLogger { prefix : string; flag : Z }.
Definition LstdFlags : Z := 3.

(** [sync.RWMutex]: a writer, or a number of readers. *)
Record RWMutex : Type := mkRWMutex { writer : bool; readers : nat }.
Definition RWMutex_zero : RWMutex := {| writer := false; readers := 0 |}.

(** [type UserRepo struct].  [o] is the [sync.Once] (has it fired), [dbMutex]
    the [sync.Mutex] (is it held).  The struct of [part_000] has no [dbMutex]
    field; its methods never look at the one here. *)
Record UserRepo : Type := mkUserRepo {
  o : bool;
  dbMutex : bool;
  db : option (gmap Z User);
  isCacheSM : bool;
  cacheSM : gmap Z User;
  rwm : RWMutex;
  cacheRWM : option (gmap Z User);
  logger : option Logger
}.

(** The zero value [UserRepo{}]. *)
Definition UserRepo_zero : UserRepo :=
  {| o := false; dbMutex := false; db := None; isCacheSM := false;
     cacheSM := ∅; rwm := RWMutex_zero; cacheRWM := None; logger := None |}.

Definition set_o (b : bool) (u : UserRepo) : UserRepo :=
  mkUserRepo b (dbMutex u) (db u) (isCacheSM u) (cacheSM u) (rwm u) (cacheRWM u) (logger u).
Definition set_dbMutex (b : bool) (u : UserRepo) : UserRepo :=
  mkUserRepo (o u) b (db u) (isCacheSM u) (cacheSM u) (rwm u) (cacheRWM u) (logger u).
Definition set_db (m : option (gmap Z User)) (u : UserRepo) : UserRepo :=
  mkUserRepo (o u) (dbMutex u) m (isCacheSM u) (cacheSM u) (rwm u) (cacheRWM u) (logger u).
Definition set_isCacheSM (b : bool) (u : UserRepo) : UserRepo :=
  mkUserRepo (o u) (dbMutex u) (db u) b (cacheSM u) (rwm u) (cacheRWM u) (logger u).
Definition set_cacheSM (m : gmap Z User) (u : UserRepo) : UserRepo :=
  mkUserRepo (o u) (dbMutex u) (db u) (isCacheSM u) m (rwm u) (cacheRWM u) (logger u).
Definition set_rwm (l : RWMutex) (u : UserRepo) : UserRepo :=
  mkUserRepo (o u) (dbMutex u) (db u) (isCacheSM u) (cacheSM u) l (cacheRWM u) (logger u).
Definition set_cacheRWM (m : option (gmap Z User)) (u : UserRepo) : UserRepo :=
  mkUserRepo (o u) (dbMutex u) (db u) (isCacheSM u) (cacheSM u) (rwm u) m (logger u).
Definition set_logger (l : option Logger) (u : UserRepo) : UserRepo :=
  mkUserRepo (o u) (dbMutex u) (db u) (isCacheSM u) (cacheSM u) (rwm u) (cacheRWM u) l.

(** ** Events *)

Inductive event : Type :=
| Println (line : string)          (* u.logger.Println(line) *)
| DbLock | DbUnlock                (* u.dbMutex.Lock() / Unlock() *)
| DbRead (id : Z)                  (* u.db[id] read *)
| DbWrite (id : Z)                 (* u.db[id] = ... *)
| RwmRLock | RwmRUnlock            (* u.rwm.RLock() / RUnlock() *)
| RwmLock | RwmUnlock              (* u.rwm.Lock() / Unlock() *)
| RwmRead (id : Z)                 (* u.cacheRWM[id] read *)
| RwmWrite (id : Z)                (* u.cacheRWM[id] = ... *)
| SmLoad (id : Z)                  (* u.cacheSM.Load(id) *)
| SmStore (id : Z).                (* u.cacheSM.Store(id, ...) *)

#[global] Instance event_eq_dec : EqDecision event.
Proof. solve_decision. Defined.

(** ** The monad of method bodies *)

Inductive outcome (S A : Type) : Type :=
| Ret (a : A) (s : S) (tr : list event)
| Panic
| Blocked.
Arguments Ret {S A} a s tr.
Arguments Panic {S A}.
Arguments Blocked {S A}.

Definition M (S A : Type) : Type := S -> outcome S A.

Definition ret {S A} (a : A) : M S A := fun s => Ret a s [].

Definition bind {S A B} (m : M S A) (k : A -> M S B) : M S B :=
  fun s =>
    match m s with
    | Ret a s1 tr1 =>
        match k a s1 with
        | Ret b s2 tr2 => Ret b s2 (tr1 ++ tr2)
        | Panic => Panic
        | Blocked => Blocked
        end
    | Panic => Panic
    | Blocked => Blocked
    end.

Declare Scope go_scope.
Delimit Scope go_scope with go.
Notation "x ← y ; z" := (bind y (fun x => z))
  (at level 20, y at level 100, z at level 200, only parsing) : go_scope.
Notation "' x ← y ; z" := (bind y (fun x => z))
  (at level 20, x pattern, y at level 100, z at level 200, only parsing) : go_scope.
Notation "x ;; z" := (bind x (fun _ => z))
  (at level 100, z at level 200, only parsing, right associativity) : go_scope.
Local Open Scope go_scope.

Definition emit {S} (e : event) : M S unit := fun s => Ret tt s [e].
Definition panic {S A} : M S A := fun _ => Panic.
Definition block {S A} : M S A := fun _ => Blocked.
Definition gets {S A} (f : S -> A) : M S A := fun s => Ret (f s) s [].
Definition modify {S} (f : S -> S) : M S unit := fun s => Ret tt (f s) [].

(** ** Locks, maps and the logger *)

(** [u.dbMutex.Lock()]: blocks while the mutex is held. *)
Definition dbMutex_Lock : M UserRepo unit :=
  held ← gets dbMutex;
  if held then block else (modify (set_dbMutex true) ;; emit DbLock).

(** [u.dbMutex.Unlock()]: a fatal error on a mutex that is not held. *)
Definition dbMutex_Unlock : M UserRepo unit :=
  held ← gets dbMutex;
  if held then (modify (set_dbMutex false) ;; emit DbUnlock) else panic.

Definition rwm_RLock : M UserRepo unit :=
  l ← gets rwm;
  if writer l then block
  else (modify (set_rwm {| writer := false; readers := S (readers l) |}) ;; emit RwmRLock).

Definition rwm_RUnlock : M UserRepo unit :=
  l ← gets rwm;
  match readers l with
  | O => panic
  | S n => modify (set_rwm {| writer := writer l; readers := n |}) ;; emit RwmRUnlock
  end.

Definition rwm_Lock : M UserRepo unit :=
  l ← gets rwm;
  if writer l then block
  else match readers l with
       | O => modify (set_rwm {| writer := true; readers := 0 |}) ;; emit RwmLock
       | S _ => block
       end.

Definition rwm_Unlock : M UserRepo unit :=
  l ← gets rwm;
  if writer l then (modify (set_rwm {| writer := false; readers := readers l |}) ;; emit RwmUnlock)
  else panic.

(** [v, ok := m[id]] on a Go map: a nil map has no entries. *)
Definition map_read (m : option (gmap Z User)) (id : Z) : User * bool :=
  match m with
  | Some g => match g !! id with
              | Some v => (v, true)
              | None => (User_zero, false)
              end
  | None => (User_zero, false)
  end.

(** [m[id] = user] on a Go map: assignment to an entry of a nil map panics. *)
Definition map_write (m : option (gmap Z User)) (id : Z) (user : User)
  : option (gmap Z User) :=
  match m with
  | Some g => Some (<[id := user]> g)
  | None => None
  end.

Definition db_read (id : Z) : M UserRepo (User * bool) :=
  m ← gets db; emit (DbRead id) ;; ret (map_read m id).

Definition db_write (id : Z) (user : User) : M UserRepo unit :=
  m ← gets db;
  match map_write m id user with
  | Some m' => modify (set_db (Some m')) ;; emit (DbWrite id)
  | None => panic
  end.

Definition cacheRWM_read (id : Z) : M UserRepo (User * bool) :=
  m ← gets cacheRWM; emit (RwmRead id) ;; ret (map_read m id).

Definition cacheRWM_write (id : Z) (user : User) : M UserRepo unit :=
  m ← gets cacheRWM;
  match map_write m id user with
  | Some m' => modify (set_cacheRWM (Some m')) ;; emit (RwmWrite id)
  | None => panic
  end.

(** [u.cacheSM.Load(id)] *)
Definition cacheSM_Load (id : Z) : M UserRepo (User * bool) :=
  m ← gets cacheSM; emit (SmLoad id) ;;
  ret (match m !! id with Some v => (v, true) | None => (User_zero, false) end).

(** [u.cacheSM.Store(id, user)] *)
Definition cacheSM_Store (id : Z) (user : User) : M UserRepo unit :=
  m ← gets cacheSM; modify (set_cacheSM (<[id := user]> m)) ;; emit (SmStore id).

(** [u.logger.Println(line)]: a nil [*log.Logger] is dereferenced, which
    panics. *)
Definition logger_Println (line : string) : M UserRepo unit :=
  l ← gets logger;
  match l with
  | Some _ => emit (Println line)
  | None => panic
  end.

(** ** The repository ([main.go] and [part_001]) *)

(** [func (u *UserRepo) getFromCache(id int) (User, bool)], the same in the
    three files. *)
Definition getFromCache (id : Z) : M UserRepo (User * bool) :=
  sm ← gets isCacheSM;
  if sm then
    '(user, ok) ← cacheSM_Load id;
    if negb ok then
      logger_Println notFoundInCache ;;
      ret (User_zero, false)
    else
      logger_Println foundInCache ;;
      ret (user, true)
  else
    rwm_RLock ;;
    '(user, ok) ← cacheRWM_read id;
    rwm_RUnlock ;;
    if negb ok then
      logger_Println notFoundInCache ;;
      ret (User_zero, false)
    else
      logger_Println foundInCache ;;
      ret (user, true).

(** [func (u *UserRepo) storeInCache(id int, user User)], the same in the
    three files. *)
Definition storeInCache (id : Z) (user : User) : M UserRepo unit :=
  sm ← gets isCacheSM;
  if sm then
    cacheSM_Store id user
  else
    rwm_Lock ;;
    cacheRWM_write id user ;;
    rwm_Unlock.

(** [func (u *UserRepo) Get(id int) (User, bool)] of [main.go] and
    [part_001]. *)
Definition UserRepo_Get (id : Z) : M UserRepo (User * bool) :=
  '(v, ok) ← getFromCache id;
  if ok then ret (v, true)
  else
    dbMutex_Lock ;;
    '(user, ok) ← db_read id;
    dbMutex_Unlock ;;
    if negb ok then
      logger_Println notFoundInDB ;;
      ret (User_zero, false)
    else
      storeInCache id user ;;
      logger_Println foundInDB ;;
      ret (user, true).

(** [func (u *UserRepo) Store(id int, user User)] of [main.go] and
    [part_001]. *)
Definition UserRepo_Store (id : Z) (user : User) : M UserRepo unit :=
  dbMutex_Lock ;;
  db_write id user ;;
  dbMutex_Unlock ;;
  storeInCache id user.

(** ** The repository of [part_000]: no [dbMutex] *)

Module Part000.

(** [func (u *UserRepo) Get(id int) (User, bool)] of [part_000]. *)
Definition UserRepo_Get (id : Z) : M UserRepo (User * bool) :=
  '(v, ok) ← getFromCache id;
  if ok then ret (v, true)
  else
    '(user, ok) ← db_read id;
    if negb ok then
      logger_Println notFoundInDB ;;
      ret (User_zero, false)
    else
      storeInCache id user ;;
      logger_Println foundInDB ;;
      ret (user, true).

(** [func (u *UserRepo) Store(id int, user User)] of [part_000]. *)
Definition UserRepo_Store (id : Z) (user : User) : M UserRepo unit :=
  db_write id user ;;
  storeInCache id user.

End Part000.

(** ** Construction *)

(** [func (u *UserRepo) doInit()] *)
Definition doInit : M UserRepo unit :=
  modify (set_db (Some ∅)) ;;
  modify (set_cacheRWM (Some ∅)).

(** [u.o.Do(f)]: [f] runs on the first call only. *)
Definition o_Do (f : M UserRepo unit) : M UserRepo unit :=
  done ← gets o;
  if done then ret tt else (f ;; modify (set_o true)).

(** [func (u *UserRepo) Init(isCacheSM bool, logger *log.Logger)] *)
Definition UserRepo_Init (isCacheSM : bool) (logger : option Logger) : M UserRepo unit :=
  modify (set_isCacheSM isCacheSM) ;;
  modify (set_logger logger) ;;
  o_Do doInit.

(** The three variants of the program.  [UserRepo.Get] and [UserRepo.Store]
    are the same text in [main.go] and [part_001]. *)
Inductive variant : Type := main_go | part_000 | part_001.

Definition Get (v : variant) : Z -> M UserRepo (User * bool) :=
  match v with
  | part_000 => Part000.UserRepo_Get
  | main_go | part_001 => UserRepo_Get
  end.

Definition Store (v : variant) : Z -> User -> M UserRepo unit :=
  match v with
  | part_000 => Part000.UserRepo_Store
  | main_go | part_001 => UserRepo_Store
  end.

(** ** Service, server and application

    [UserService] holds a [*UserRepo] and [UserServer] a [*UserService]; each
    pointer has one holder, so the pointee is kept in place of the pointer
    ([None] for nil). *)

Record UserService : Type := mkUserService { repo : option UserRepo }.
Record UserServer : Type := mkUserServer { service : option UserService }.

(** [type App struct].  [buf] is the [bytes.Buffer] the logger writes to, as
    the list of its lines. *)
Record App : Type := mkApp {
  app_o : bool;
  buf : list string;
  app_logger : option Logger;
  UserS : UserServer;
  app_isCacheSM : bool
}.

Definition App_zero : App :=
  {| app_o := false; buf := []; app_logger := None;
     UserS := {| service := None |}; app_isCacheSM := false |}.

(** A method of the pointee run through the pointer; a nil pointer panics. *)
Definition through {S T A} (get : S -> option T) (set : T -> S) (m : M T A) : M S A :=
  fun s =>
    match get s with
    | None => Panic
    | Some t =>
        match m t with
        | Ret a t' tr => Ret a (set t') tr
        | Panic => Panic
        | Blocked => Blocked
        end
    end.

(** [func (u *UserService) Init(r *UserRepo)] *)
Definition UserService_Init (r : UserRepo) : M UserService unit :=
  modify (fun _ => {| repo := Some r |}).

(** [func (u *UserService) Get(id int) (User, bool)] *)
Definition UserService_Get (v : variant) (id : Z) : M UserService (User * bool) :=
  through repo (fun r => {| repo := Some r |}) (Get v id).

(** [func (u *UserService) Store(id int, user User)] *)
Definition UserService_Store (v : variant) (id : Z) (user : User) : M UserService unit :=
  through repo (fun r => {| repo := Some r |}) (Store v id user).

(** [func (u *UserServer) Init(service *UserService)] *)
Definition UserServer_Init (s : UserService) : M UserServer unit :=
  modify (fun _ => {| service := Some s |}).

(** [func (u *UserServer) Get(id int) (User, bool)] *)
Definition UserServer_Get (v : variant) (id : Z) : M UserServer (User * bool) :=
  through service (fun s => {| service := Some s |}) (UserService_Get v id).

(** [func (u *UserServer) Store(id int, user User)] *)
Definition UserServer_Store (v : variant) (id : Z) (user : User) : M UserServer unit :=
  through service (fun s => {| service := Some s |}) (UserService_Store v id user).

(** The lines of a trace that went through the logger. *)
Definition printed (tr : list event) : list string :=
  omap (fun e => match e with Println l => Some l | _ => None end) tr.

(** A call on [app.UserS]: the repository's logger is the application's, so
    what the call logs lands in [a.buf]. *)
Definition on_UserS {A} (m : M UserServer A) : M App A :=
  fun a =>
    match m (UserS a) with
    | Ret x s tr =>
        Ret x (mkApp (app_o a) (buf a ++ printed tr) (app_logger a) s (app_isCacheSM a)) tr
    | Panic => Panic
    | Blocked => Blocked
    end.

(** [func (a *App) doInit()] *)
Definition App_doInit : M App unit :=
  fun a =>
    let l := Some (mkLogger "" LstdFlags) in
    match UserRepo_Init (app_isCacheSM a) l UserRepo_zero with
    | Ret _ userRepo tr1 =>
        match UserService_Init userRepo {| repo := None |} with
        | Ret _ userService tr2 =>
            match UserServer_Init userService {| service := None |} with
            | Ret _ userServer tr3 =>
                Ret tt (mkApp (app_o a) (buf a ++ [appIsStarted]) l userServer (app_isCacheSM a))
                    (tr1 ++ tr2 ++ tr3 ++ [Println appIsStarted])
            | Panic => Panic
            | Blocked => Blocked
            end
        | Panic => Panic
        | Blocked => Blocked
        end
    | Panic => Panic
    | Blocked => Blocked
    end.

(** [func (a *App) Init(isCacheSM bool)] *)
Definition App_Init (isCacheSM : bool) : M App unit :=
  modify (fun a => mkApp (app_o a) (buf a) (app_logger a) (UserS a) isCacheSM) ;;
  done ← gets app_o;
  if done then ret tt
  else (App_doInit ;;
        modify (fun a => mkApp true (buf a) (app_logger a) (UserS a) (app_isCacheSM a))).

(** [func CreateApp(isCacheSM bool) *App] *)
Definition CreateApp (isCacheSM : bool) : outcome App unit :=
  App_Init isCacheSM App_zero.

(** The repository behind [app.UserS], when the pointers are set. *)
Definition repo_of (a : App) : option UserRepo :=
  match service (UserS a) with
  | Some s => repo s
  | None => None
  end.

(** ** Sequences of operations *)

Inductive op : Type :=
| OpGet (id : Z)
| OpStore (id : Z) (user : User).

Inductive result : Type :=
| ResGet (user : User) (found : bool)
| ResStore.

#[global] Instance result_eq_dec : EqDecision result.
Proof. solve_decision. Defined.

Definition exec (v : variant) (x : op) : M UserRepo result :=
  match x with
  | OpGet id => '(user, ok) ← Get v id; ret (ResGet user ok)
  | OpStore id user => Store v id user ;; ret ResStore
  end.

Fixpoint run (v : variant) (xs : list op) : M UserRepo (list result) :=
  match xs with
  | [] => ret []
  | x :: xs' => r ← exec v x; rs ← run v xs'; ret (r :: rs)
  end.

(** A freshly constructed repository: [userRepo := UserRepo{}] followed by
    [userRepo.Init(isCacheSM, logger)], as [App.doInit] does. *)
Definition fresh (isCacheSM : bool) : UserRepo :=
  {| o := true; dbMutex := false; db := Some ∅; isCacheSM := isCacheSM;
     cacheSM := ∅; rwm := RWMutex_zero; cacheRWM := Some ∅;
     logger := Some (mkLogger "" LstdFlags) |}.

(** The cache in use, as the strategy flag selects it. *)
Definition cache (u : UserRepo) : option (gmap Z User) :=
  if isCacheSM u then Some (cacheSM u) else cacheRWM u.

(** What [Println(v, ok)] writes for a [User] and a [bool]: the two operands
    in their default formats with a space between them, as in [{Ivan} true]. *)
Definition Sprintln_User_bool (v : User) (ok : bool) : string :=
  "{" +:+ Name v +:+ "} " +:+ (if ok then "true" else "false").

(** [app.logger.Println(line)]: one more line in [a.buf]; a nil logger
    panics. *)
Definition app_logger_Println (line : string) : M App unit :=
  fun a =>
    match app_logger a with
    | Some _ =>
        Ret tt (mkApp (app_o a) (buf a ++ [line]) (app_logger a) (UserS a)
                  (app_isCacheSM a)) [Println line]
    | None => Panic
    end.

(** [func (a *App) Println()], that is [fmt.Println(a.buf.String())]: the
    value is what goes to standard output, line by line; the buffer ends in
    a newline and [fmt.Println] adds its own, hence the empty last line. *)
Definition App_Println : M App (list string) :=
  gets (fun a => buf a ++ [""]).

(** [func Scenario(app *App)] of [part_000]; the value is what it prints. *)
Definition Scenario : M App (list string) :=
  '(v, ok) ← on_UserS (UserServer_Get part_000 1);
  app_logger_Println (Sprintln_User_bool v ok) ;;
  on_UserS (UserServer_Store part_000 1 {| Name := "Ivan" |}) ;;
  '(v, ok) ← on_UserS (UserServer_Get part_000 1);
  app_logger_Println (Sprintln_User_bool v ok) ;;
  '(v, ok) ← on_UserS (UserServer_Get part_000 1);
  app_logger_Println (Sprintln_User_bool v ok) ;;
  App_Println.

(** [app := CreateApp(isCacheSM); Scenario(app)], the body of
    [ScenarioSyncMapCache] and of [ScenarioRWMutexCache]; [None] when it
    does not return. *)
Definition Scenario_of (isCacheSM : bool) : option (list string) :=
  match CreateApp isCacheSM with
  | Ret _ app _ =>
      match Scenario app with
      | Ret out _ _ => Some out
      | Panic | Blocked => None
      end
  | Panic | Blocked => None
  end.

(** [func ScenarioSyncMapCache()] and [func ScenarioRWMutexCache()] *)
Definition ScenarioSyncMapCache : option (list string) := Scenario_of true.
Definition ScenarioRWMutexCache : option (list string) := Scenario_of false.

(** ** The load generator *)

(** [type Scale struct] of [main.go] *)
Record Scale : Type := mkScale {
  name : string;
  totalOps : Z;
  concurrency : Z;
  readRatio : float;
  writeRatio : float
}.

(** [float64(n)] for an [int] with [0 <= n]: every such [int] is below
    [2^63], and the conversion rounds to the nearest binary64 like Go's. *)
Definition float64 (n : Z) : float := PrimFloat.of_uint63 (Uint63.of_Z n).

(** [fmt.Sprintf("User-%d", j)] *)
Definition Sprintf_User (j : Z) : string := "User-" +:+ pretty j.

(** The test of the loop body,
    [float64(j) / float64(scale.totalOps/scale.concurrency) < scale.readRatio],
    with [q] the quotient [totalOps/concurrency]. *)
Definition is_read (j q : Z) (readRatio : float) : bool :=
  PrimFloat.ltb (PrimFloat.div (float64 j) (float64 q)) readRatio.

(** The body of one goroutine of [RunScenario]: the calls worker [id] makes
    on [app.UserS], in order.  Go's [/] on [int] truncates. *)
Definition worker (scale : Scale) (id : Z) : list op :=
  let q := Z.quot (totalOps scale) (concurrency scale) in
  map (fun j =>
         if is_read j q (readRatio scale) then OpGet id
         else OpStore id {| Name := Sprintf_User j |})
      (seqZ 0 q).

(** The goroutine of [ScenarioHeavyRead] of [part_001]. *)
Definition ScenarioHeavyRead_worker (id : Z) : list op :=
  let totalOps := 1000000 in
  let readRatio := 0.9%float in
  let concurrency := 500 in
  map (fun j =>
         if is_read j (Z.quot totalOps concurrency) readRatio then OpGet id
         else OpStore id {| Name := Sprintf_User j |})
      (seqZ 0 (Z.quot totalOps concurrency)).

(** The goroutine of [ScenarioHeavyWrite] of [part_001]: the test selects the
    writes. *)
Definition ScenarioHeavyWrite_worker (id : Z) : list op :=
  let totalOps := 1000000 in
  let writeRatio := 0.9%float in
  let concurrency := 500 in
  map (fun j =>
         if is_read j (Z.quot totalOps concurrency) writeRatio
         then OpStore id {| Name := Sprintf_User j |}
         else OpGet id)
      (seqZ 0 (Z.quot totalOps concurrency)).

(** The goroutine of [ScenarioMixedReadWrite] of [part_001]. *)
Definition ScenarioMixedReadWrite_worker (id : Z) : list op :=
  let totalOps := 10000000 in
  let readRatio := 0.5%float in
  let concurrency := 5000 in
  map (fun j =>
         if is_read j (Z.quot totalOps concurrency) readRatio then OpGet id
         else OpStore id {| Name := Sprintf_User j |})
      (seqZ 0 (Z.quot totalOps concurrency)).

Inductive kind : Type := Read | Write.

#[global] Instance kind_eq_dec : EqDecision kind.
Proof. solve_decision. Defined.

Definition kind_of (x : op) : kind :=
  match x with OpGet _ => Read | OpStore _ _ => Write end.

(** The value of a binary64 as a rational (0 for infinities and NaN, which
    no read fraction is). *)
Definition float_Q (f : float) : Q :=
  match Prim2SF f with
  | S754_finite s m e =>
      let v := (inject_Z (Z.pos m) * Qpower 2 e)%Q in
      if s then Qopp v else v
  | _ => 0%Q
  end.



(** App-level execution of an operation through [app.UserS]. *)
Definition app_exec (v : variant) (x : op) : M App result :=
  match x with
  | OpGet id => '(user, ok) ← on_UserS (UserServer_Get v id); ret (ResGet user ok)
  | OpStore id user => on_UserS (UserServer_Store v id user) ;; ret ResStore
  end.

Fixpoint app_run (v : variant) (xs : list op) : M App unit :=
  match xs with
  | [] => ret tt
  | x :: xs' => app_exec v x ;; app_run v xs'
  end.

(** One schedule of a set of goroutines: each runs to its end before the
    next starts. *)
Definition in_turn (v : variant) (workers : list (list op)) : M App unit :=
  app_run v (concat workers).

(** ** The benchmark driver

    What the driver does is recorded as its own events: the state of the
    application each load starts on, and each [fmt.Printf].  A driver that
    does not return (a load that panics or blocks) is [None]. *)

Inductive driver_event : Type :=
| Loaded (start : App)
| Printf (out : string).

Definition D (A : Type) : Type := option (A * list driver_event).

Definition D_then {A B} (m : D A) (k : A -> D B) : D B :=
  match m with
  | Some (a, t1) =>
      match k a with
      | Some (b, t2) => Some (b, t1 ++ t2)
      | None => None
      end
  | None => None
  end.

(** [time.Duration] is an [int64] of nanoseconds; [+=] wraps around. *)
Definition int64 (z : Z) : Z := (z + 2 ^ 63) mod 2 ^ 64 - 2 ^ 63.

Section Driver.

(** How the goroutines of a load are interleaved is the scheduler's choice:
    [go workers] stands for [wg.Add(n); go ...; wg.Wait()] on the given
    goroutine bodies. *)
Variable go : list (list op) -> M App unit.

(** [time.Since(start)] as measured in iteration [i], in nanoseconds. *)
Variable Since : nat -> Z.

(** [%v] of a [time.Duration]. *)
Variable Duration_String : Z -> string.

Definition load (workers : list (list op)) (app : App) : D unit :=
  match go workers app with
  | Ret _ _ _ => Some (tt, [Loaded app])
  | Panic | Blocked => None
  end.

(** [func RunScenario(app *App, scale Scale)] of [main.go];
    [wg.Add] panics on a negative count. *)
Definition RunScenario (app : App) (scale : Scale) : D unit :=
  if concurrency scale <? 0 then None
  else load (map (worker scale) (seqZ 0 (concurrency scale))) app.

(** [func ScenarioHeavyRead(app *App)] and its siblings of [part_001]. *)
Definition ScenarioHeavyRead (app : App) : D unit :=
  load (map ScenarioHeavyRead_worker (seqZ 0 500)) app.
Definition ScenarioHeavyWrite (app : App) : D unit :=
  load (map ScenarioHeavyWrite_worker (seqZ 0 500)) app.
Definition ScenarioMixedReadWrite (app : App) : D unit :=
  load (map ScenarioMixedReadWrite_worker (seqZ 0 5000)) app.

Definition D_CreateApp (isCacheSM : bool) : D App :=
  match CreateApp isCacheSM with
  | Ret _ app _ => Some (app, [])
  | Panic | Blocked => None
  end.

(** The loop [for i := 0; i < 10; i++] of [BenchmarkScenario], from
    iteration [i] with [n] iterations to go; the value is [total]. *)
Fixpoint BenchmarkScenario_loop (n i : nat) (isCacheSM : bool) (scale : Scale)
    (total : Z) : D Z :=
  match n with
  | O => Some (total, [])
  | S n' =>
      D_then (D_CreateApp isCacheSM) (fun app =>
      D_then (RunScenario app scale) (fun _ =>
      BenchmarkScenario_loop n' (S i) isCacheSM scale (int64 (total + Since i))))
  end.

(** [func BenchmarkScenario(name string, isCacheSM bool, scale Scale)] of
    [main.go]. *)
Definition BenchmarkScenario (name0 : string) (isCacheSM : bool) (scale : Scale) : D unit :=
  D_then (BenchmarkScenario_loop 10 0 isCacheSM scale 0) (fun total =>
  Some (tt, [Printf (name0 +:+ " (" +:+ name scale +:+ ") average time over 10 runs: "
                     +:+ Duration_String (Z.quot total 10) +:+ "
")])).

(** The loop of [runScenario], as above. *)
Fixpoint runScenario_loop (n i : nat) (fn : D unit) (total : Z) : D Z :=
  match n with
  | O => Some (total, [])
  | S n' =>
      D_then fn (fun _ =>
      let elapsed := Since i in
      runScenario_loop n' (S i) fn (int64 (total + elapsed)))
  end.

(** [func runScenario(name string, fn func()) time.Duration] of
    [part_001]. *)
Definition runScenario (name0 : string) (fn : D unit) : D Z :=
  let runs := 10 in
  D_then (runScenario_loop (Z.to_nat runs) 0 fn 0) (fun total =>
  let avg := Z.quot total runs in
  Some (avg, [Printf (name0 +:+ " average time over " +:+ pretty runs +:+ " runs: "
                      +:+ Duration_String avg +:+ "
")])).

(** The functions that [main] of [part_001] hands to [runScenario]. *)
Definition ScenarioSyncMapHeavyRead : D unit :=
  D_then (D_CreateApp true) ScenarioHeavyRead.
Definition ScenarioSyncMapHeavyWrite : D unit :=
  D_then (D_CreateApp true) ScenarioHeavyWrite.
Definition ScenarioRWMutexHeavyRead : D unit :=
  D_then (D_CreateApp false) ScenarioHeavyRead.
Definition ScenarioRWMutexHeavyWrite : D unit :=
  D_then (D_CreateApp false) ScenarioHeavyWrite.
Definition ScenarioSyncMapMixed : D unit :=
  D_then (D_CreateApp true) ScenarioMixedReadWrite.
Definition ScenarioRWMutexMixed : D unit :=
  D_then (D_CreateApp false) ScenarioMixedReadWrite.

(** The calls of [main] of [part_001], with the strategy each one builds. *)
Definition main_part_001 : list (string * bool * D unit) :=
  [ ("sync.Map heavy read", true, ScenarioSyncMapHeavyRead);
    ("sync.Map heavy write", true, ScenarioSyncMapHeavyWrite);
    ("RWMutex heavy read", false, ScenarioRWMutexHeavyRead);
    ("RWMutex heavy write", false, ScenarioRWMutexHeavyWrite);
    ("sync.Map mixed read/write", true, ScenarioSyncMapMixed);
    ("RWMutex mixed read/write", false, ScenarioRWMutexMixed) ].

End Driver.

(** The application as [CreateApp] returns it. *)
Definition fresh_app (isCacheSM : bool) : App :=
  {| app_o := true; buf := [appIsStarted];
     app_logger := Some (mkLogger "" LstdFlags);
     UserS := {| service := Some {| repo := Some (fresh isCacheSM) |} |};
     app_isCacheSM := isCacheSM |}.

(** * Vocabulary of the properties *)

(** ** Constructed repositories *)

(** What construction establishes and every operation keeps: the maps are
    allocated, the logger is set and no lock is held. *)
Definition ready (u : UserRepo) : Prop :=
  dbMutex u = false ∧ rwm u = RWMutex_zero ∧
  is_Some (db u) ∧ is_Some (cacheRWM u) ∧ is_Some (logger u).

(** The record found under [id] in a Go map, if any. *)
Definition find (m : option (gmap Z User)) (id : Z) : option User :=
  match m with Some g => g !! id | None => None end.

(** The events of a cache lookup and of a cache update, per strategy. *)
Definition lookup_events (sm : bool) (id : Z) : list event :=
  if sm then [SmLoad id] else [RwmRLock; RwmRead id; RwmRUnlock].

Definition update_events (sm : bool) (id : Z) : list event :=
  if sm then [SmStore id] else [RwmLock; RwmWrite id; RwmUnlock].

(** The events of the store lookup and of the store update, per variant. *)
Definition db_read_events (v : variant) (id : Z) : list event :=
  match v with
  | part_000 => [DbRead id]
  | main_go | part_001 => [DbLock; DbRead id; DbUnlock]
  end.

Definition db_write_events (v : variant) (id : Z) : list event :=
  match v with
  | part_000 => [DbWrite id]
  | main_go | part_001 => [DbLock; DbWrite id; DbUnlock]
  end.

(** The repository with [user] put under [id] in the cache in use. *)
Definition cache_put (id : Z) (user : User) (u : UserRepo) : UserRepo :=
  if isCacheSM u then set_cacheSM (<[id := user]> (cacheSM u)) u
  else set_cacheRWM (map_write (cacheRWM u) id user) u.

Definition db_put (id : Z) (user : User) (u : UserRepo) : UserRepo :=
  set_db (map_write (db u) id user) u.

Ltac run_go :=
  unfold Get, Store, UserRepo_Get, UserRepo_Store, Part000.UserRepo_Get,
    Part000.UserRepo_Store, getFromCache, storeInCache, cacheSM_Load,
    cacheSM_Store, cacheRWM_read, cacheRWM_write, db_read, db_write,
    dbMutex_Lock, dbMutex_Unlock, rwm_RLock, rwm_RUnlock, rwm_Lock,
    rwm_Unlock, logger_Println, bind, gets, modify, emit, ret, panic, block;
  cbn.

Ltac open_ready u H :=
  destruct u as [o0 mu0 [db0|] sm0 csm0 rw0 [crw0|] [lg0|]];
  destruct H as (Hmu & Hrw & [? Hdb] & [? Hc] & [? Hl]);
  cbn in Hmu, Hrw, Hdb, Hc, Hl; try discriminate; subst mu0 rw0.


(** An event on the backing store or on its lock. *)
Definition on_db (e : event) : bool :=
  match e with
  | DbLock | DbUnlock | DbRead _ | DbWrite _ => true
  | _ => false
  end.

(** A trace keeps the backing store under its lock: [held] tells whether
    the lock is held on entry; every [DbRead] and [DbWrite] happens while it
    is held, [Lock] and [Unlock] alternate, and it is free at the end. *)
Fixpoint db_guarded (held : bool) (tr : list event) : bool :=
  match tr with
  | [] => negb held
  | DbLock :: tr' => negb held && db_guarded true tr'
  | DbUnlock :: tr' => held && db_guarded false tr'
  | DbRead _ :: tr' | DbWrite _ :: tr' => held && db_guarded held tr'
  | _ :: tr' => db_guarded held tr'
  end.

(** Every entry of the cache in use is an entry of the backing store. *)
Definition coherent (u : UserRepo) : Prop :=
  ∀ id x, find (cache u) id = Some x -> find (db u) id = Some x.

(** No record under [id], neither in the store nor in the cache in use. *)
Definition absent (id : Z) (u : UserRepo) : Prop :=
  find (db u) id = None ∧ find (cache u) id = None.

(** Two repositories that hold the same store and the same cache contents,
    whatever their strategies. *)
Definition same_contents (u1 u2 : UserRepo) : Prop :=
  db u1 = db u2 ∧ cache u1 = cache u2.

Definition stores_to (id : Z) (x : op) : bool :=
  match x with
  | OpStore id' _ => bool_decide (id' = id)
  | OpGet _ => false
  end.

(** A computation that, when it returns, leaves the strategy flag as it
    found it. *)
Definition keeps_flag {A} (m : M UserRepo A) : Prop :=
  ∀ s a s' tr, m s = Ret a s' tr -> isCacheSM s' = isCacheSM s.




(** [total] after the ten iterations of the driver's loop. *)
Definition total10 (Since : nat -> Z) : Z :=
  foldl (fun total i => int64 (total + Since i)) 0 (seq 0 10).

(** The goroutine bodies that [RunScenario] starts. *)
Definition workers (scale : Scale) : list (list op) :=
  map (worker scale) (seqZ 0 (concurrency scale)).

(** An application whose pointers lead to a constructed repository. *)
Definition app_ready (a : App) : Prop :=
  ∃ u, UserS a = {| service := Some {| repo := Some u |} |} ∧ ready u.





(** The number of [Get] calls in a sequence of operations. *)
Definition reads (xs : list op) : nat :=
  length (List.filter (fun x => match x with OpGet _ => true | OpStore _ _ => false end) xs).

(** ** Vocabulary of the further properties *)

(** What [Get] answers on a constructed repository, read off its contents:
    the cache in use first, the backing store second. *)
Definition answer (u : UserRepo) (id : Z) : User * bool :=
  match find (cache u) id with
  | Some x => (x, true)
  | None =>
      match find (db u) id with
      | Some x => (x, true)
      | None => (User_zero, false)
      end
  end.

(** The record of the last [Store] on [id] in a sequence, if there is one. *)
Fixpoint last_store (id : Z) (xs : list op) : option User :=
  match xs with
  | [] => None
  | x :: xs' =>
      match last_store id xs' with
      | Some r => Some r
      | None =>
          match x with
          | OpStore id' r => if decide (id' = id) then Some r else None
          | OpGet _ => None
          end
      end
  end.

(** A plain map offering the two operations, with no cache and no lock: the
    reference the repository is compared with. *)
Definition plain_exec (m : gmap Z User) (x : op) : result * gmap Z User :=
  match x with
  | OpGet id =>
      (match m !! id with
       | Some r => ResGet r true
       | None => ResGet User_zero false
       end, m)
  | OpStore id user => (ResStore, <[id := user]> m)
  end.

Fixpoint plain_run (m : gmap Z User) (xs : list op) : list result * gmap Z User :=
  match xs with
  | [] => ([], m)
  | x :: xs' =>
      let '(r, m1) := plain_exec m x in
      let '(rs, m2) := plain_run m1 xs' in
      (r :: rs, m2)
  end.

(** How [u.rwm] is held at a point of a trace. *)
Inductive rw_mode : Type := Free | Shared | Exclusive.

(** A trace keeps [cacheRWM] under [u.rwm]: reads happen under [RLock] or
    [Lock], writes under [Lock] only, the lock calls pair up, and the lock
    is free at the end. *)
Fixpoint rwm_guarded (m : rw_mode) (tr : list event) : bool :=
  match tr with
  | [] => match m with Free => true | _ => false end
  | RwmRLock :: tr' => match m with Free => rwm_guarded Shared tr' | _ => false end
  | RwmRUnlock :: tr' => match m with Shared => rwm_guarded Free tr' | _ => false end
  | RwmLock :: tr' => match m with Free => rwm_guarded Exclusive tr' | _ => false end
  | RwmUnlock :: tr' => match m with Exclusive => rwm_guarded Free tr' | _ => false end
  | RwmRead _ :: tr' => match m with Free => false | _ => rwm_guarded m tr' end
  | RwmWrite _ :: tr' => match m with Exclusive => rwm_guarded m tr' | _ => false end
  | _ :: tr' => rwm_guarded m tr'
  end.

(** An event on [u.rwm] or on [cacheRWM]; an event on [cacheSM]. *)
Definition on_rwm (e : event) : bool :=
  match e with
  | RwmRLock | RwmRUnlock | RwmLock | RwmUnlock | RwmRead _ | RwmWrite _ => true
  | _ => false
  end.

Definition on_sm (e : event) : bool :=
  match e with SmLoad _ | SmStore _ => true | _ => false end.

(** No line is logged while a lock is held, and a critical section holds
    exactly one map access: [held] is the number of locks held, [n] the
    number of map accesses since the last lock call. *)
Fixpoint short_sections (held n : nat) (tr : list event) : bool :=
  match tr with
  | [] => true
  | (DbLock | RwmRLock | RwmLock) :: tr' => short_sections (S held) 0 tr'
  | (DbUnlock | RwmRUnlock | RwmUnlock) :: tr' =>
      bool_decide (n = 1%nat) && short_sections (pred held) 0 tr'
  | Println _ :: tr' => bool_decide (held = 0%nat) && short_sections held n tr'
  | (DbRead _ | DbWrite _ | RwmRead _ | RwmWrite _) :: tr' =>
      short_sections held (S n) tr'
  | (SmLoad _ | SmStore _) :: tr' => short_sections held n tr'
  end.
(** * Properties *)

(** The demonstration of [part_000] under either strategy: a miss, then two
    hits, and what it prints at the end, the eight lines of the buffer (less
    their time stamps). *)
Example ScenarioSyncMapCache_runs :
  ScenarioSyncMapCache =
  Some [appIsStarted; notFoundInCache; notFoundInDB; "{} false";
        foundInCache; "{Ivan} true"; foundInCache; "{Ivan} true"; ""].
Proof. vm_compute. reflexivity. Qed.

Example ScenarioRWMutexCache_runs :
  ScenarioRWMutexCache =
  Some [appIsStarted; notFoundInCache; notFoundInDB; "{} false";
        foundInCache; "{Ivan} true"; foundInCache; "{Ivan} true"; ""].
Proof. vm_compute. reflexivity. Qed.

(** ** Closed forms on constructed repositories *)

Lemma getFromCache_ready (u : UserRepo) (id : Z) :
  ready u ->
  getFromCache id u =
  match find (cache u) id with
  | Some x => Ret (x, true) u (lookup_events (isCacheSM u) id ++ [Println foundInCache])
  | None => Ret (User_zero, false) u
              (lookup_events (isCacheSM u) id ++ [Println notFoundInCache])
  end.
Proof.
  intros H. open_ready u H. unfold cache, find; cbn.
  destruct sm0; run_go.
  - destruct (csm0 !! id); reflexivity.
  - destruct (crw0 !! id); reflexivity.
Qed.

Lemma storeInCache_ready (u : UserRepo) (id : Z) (user : User) :
  ready u ->
  storeInCache id user u = Ret tt (cache_put id user u) (update_events (isCacheSM u) id).
Proof.
  intros H. open_ready u H. unfold cache_put; cbn.
  destruct sm0; run_go; reflexivity.
Qed.

Lemma cache_put_ready (u : UserRepo) (id : Z) (user : User) :
  ready u -> ready (cache_put id user u).
Proof.
  intros H. open_ready u H. unfold cache_put, ready; cbn.
  destruct sm0; cbn; eauto 10.
Qed.

Lemma db_put_ready (u : UserRepo) (id : Z) (user : User) :
  ready u -> ready (db_put id user u).
Proof.
  intros H. open_ready u H. unfold db_put, ready; cbn. eauto 10.
Qed.

(** [Get] on a constructed repository, in closed form. *)
Lemma Get_ready (v : variant) (u : UserRepo) (id : Z) :
  ready u ->
  Get v id u =
  match find (cache u) id with
  | Some x => Ret (x, true) u (lookup_events (isCacheSM u) id ++ [Println foundInCache])
  | None =>
      match find (db u) id with
      | Some x =>
          Ret (x, true) (cache_put id x u)
            (lookup_events (isCacheSM u) id ++ [Println notFoundInCache]
             ++ db_read_events v id ++ update_events (isCacheSM u) id
             ++ [Println foundInDB])
      | None =>
          Ret (User_zero, false) u
            (lookup_events (isCacheSM u) id ++ [Println notFoundInCache]
             ++ db_read_events v id ++ [Println notFoundInDB])
      end
  end.
Proof.
  intros H. open_ready u H. unfold cache, find, cache_put; cbn.
  destruct v, sm0; run_go;
    repeat match goal with
           | |- context [?m !! id] => destruct (m !! id) eqn:?; cbn
           end; reflexivity.
Qed.

(** [Store] on a constructed repository, in closed form. *)
Lemma Store_ready (v : variant) (u : UserRepo) (id : Z) (user : User) :
  ready u ->
  Store v id user u =
  Ret tt (cache_put id user (db_put id user u))
    (db_write_events v id ++ update_events (isCacheSM u) id).
Proof.
  intros H. open_ready u H. unfold cache_put, db_put; cbn.
  destruct v, sm0; run_go; reflexivity.
Qed.

Lemma fresh_ready (b : bool) : ready (fresh b).
Proof. unfold ready, fresh; cbn. eauto 10. Qed.

(** [fresh] is what [Init] makes of the zero value. *)
Lemma Init_zero (b : bool) (l : Logger) :
  UserRepo_Init b (Some l) UserRepo_zero =
  Ret tt (set_logger (Some l) (fresh b)) [].
Proof. reflexivity. Qed.

Lemma CreateApp_fresh (b : bool) :
  CreateApp b = Ret tt (fresh_app b) [Println appIsStarted].
Proof. reflexivity. Qed.

Lemma find_cache_put (u : UserRepo) (id id' : Z) (user : User) :
  ready u ->
  find (cache (cache_put id user u)) id' =
  if decide (id = id') then Some user else find (cache u) id'.
Proof.
  intros H. open_ready u H. unfold cache_put, cache, find; cbn.
  destruct sm0; cbn; apply lookup_insert.
Qed.

Lemma find_db_put (u : UserRepo) (id id' : Z) (user : User) :
  ready u ->
  find (db (db_put id user u)) id' =
  if decide (id = id') then Some user else find (db u) id'.
Proof.
  intros H. open_ready u H. unfold db_put, find; cbn. apply lookup_insert.
Qed.

Lemma db_cache_put (u : UserRepo) (id : Z) (user : User) :
  db (cache_put id user u) = db u.
Proof. unfold cache_put. destruct (isCacheSM u); reflexivity. Qed.

Lemma cache_db_put (u : UserRepo) (id : Z) (user : User) :
  cache (db_put id user u) = cache u.
Proof. reflexivity. Qed.

Lemma isCacheSM_cache_put (u : UserRepo) (id : Z) (user : User) :
  isCacheSM (cache_put id user u) = isCacheSM u.
Proof. unfold cache_put. destruct (isCacheSM u) eqn:E; cbn; exact E. Qed.

Lemma isCacheSM_db_put (u : UserRepo) (id : Z) (user : User) :
  isCacheSM (db_put id user u) = isCacheSM u.
Proof. reflexivity. Qed.

(** Every operation returns on a constructed repository, and leaves one. *)
Lemma exec_ready (v : variant) (x : op) (u : UserRepo) :
  ready u -> ∃ r u' tr, exec v x u = Ret r u' tr ∧ ready u'.
Proof.
  intros H. destruct x as [id | id user]; unfold exec, bind, ret.
  - rewrite (Get_ready v u id H).
    destruct (find (cache u) id); [|destruct (find (db u) id)];
      cbn; eauto 10 using cache_put_ready.
  - rewrite (Store_ready v u id user H). cbn.
    eauto 10 using cache_put_ready, db_put_ready.
Qed.

Lemma run_cons (v : variant) (x : op) (xs : list op) (u : UserRepo) r u1 tr1 rs u2 tr2 :
  exec v x u = Ret r u1 tr1 ->
  run v xs u1 = Ret rs u2 tr2 ->
  run v (x :: xs) u = Ret (r :: rs) u2 (tr1 ++ tr2 ++ []).
Proof. intros H1 H2. cbn. unfold bind. rewrite H1, H2. reflexivity. Qed.

Lemma run_ready (v : variant) (xs : list op) (u : UserRepo) :
  ready u -> ∃ rs u' tr, run v xs u = Ret rs u' tr ∧ ready u'.
Proof.
  revert u. induction xs as [|x xs IH]; intros u H.
  - exists [], u, []. split; [reflexivity | exact H].
  - destruct (exec_ready v x u H) as (r & u1 & tr1 & E1 & H1).
    destruct (IH u1 H1) as (rs & u2 & tr2 & E2 & H2).
    exists (r :: rs), u2, (tr1 ++ tr2 ++ []). split; [|exact H2].
    eapply run_cons; eassumption.
Qed.

(** An invariant of constructed repositories that every operation keeps
    holds after every sequence of operations. *)
Lemma run_invariant (P : UserRepo -> Prop) (v : variant) :
  (∀ x u r u' tr, ready u -> P u -> exec v x u = Ret r u' tr -> P u') ->
  ∀ xs u rs u' tr, ready u -> P u -> run v xs u = Ret rs u' tr -> P u'.
Proof.
  intros Hstep xs. induction xs as [|x xs IH]; intros u rs u' tr H HP E.
  - cbn in E. injection E as <- <- <-. exact HP.
  - destruct (exec_ready v x u H) as (r & u1 & tr1 & E1 & H1).
    cbn in E. unfold bind in E. rewrite E1 in E.
    destruct (run v xs u1) as [rs2 u2 tr2| |] eqn:E2; try discriminate.
    cbn in E. injection E as <- <- <-.
    eapply IH; [exact H1 | | exact E2]. exact (Hstep x u r u1 tr1 H HP E1).
Qed.

(** ** The repository *)

(** C1.  [Get] on a constructed repository starts with the cache lookup.  On
    a cache hit it returns the cached record with [found = true], leaves the
    repository as it was and performs no event on the backing store.  On a
    cache miss it reads the backing store: on a store miss it returns
    [found = false]; on a store hit it writes the store's record into the
    cache (after the store read) and returns that record with
    [found = true]. *)
Theorem C1_Get_read_through (v : variant) (u : UserRepo) (id : Z) :
  ready u ->
  ∃ r u' tr,
    Get v id u = Ret r u' (lookup_events (isCacheSM u) id ++ tr) ∧
    match find (cache u) id with
    | Some x =>
        r = (x, true) ∧ u' = u ∧ forallb (fun e => negb (on_db e)) tr = true
    | None =>
        match find (db u) id with
        | None =>
            r = (User_zero, false) ∧ u' = u ∧
            tr = [Println notFoundInCache] ++ db_read_events v id
                 ++ [Println notFoundInDB]
        | Some x =>
            r = (x, true) ∧ u' = cache_put id x u ∧
            find (cache u') id = Some x ∧ db u' = db u ∧
            tr = [Println notFoundInCache] ++ db_read_events v id
                 ++ update_events (isCacheSM u) id ++ [Println foundInDB]
        end
    end.
Proof.
  intros H. rewrite (Get_ready v u id H).
  destruct (find (cache u) id) as [x|] eqn:Ec.
  - exists (x, true), u, [Println foundInCache]. repeat split.
  - destruct (find (db u) id) as [x|] eqn:Ed.
    + eexists (x, true), (cache_put id x u), _. split; [reflexivity|].
      repeat split.
      * rewrite find_cache_put by exact H. destruct (decide (id = id)); congruence.
      * apply db_cache_put.
    + eexists (User_zero, false), u, _. split; [reflexivity|]. repeat split.
Qed.

Lemma C1_Get_read_through_witness :
  ∃ r u' tr,
    Get main_go 7 (fresh true) = Ret r u' (lookup_events true 7 ++ tr) ∧
    r = (User_zero, false) ∧ u' = fresh true.
Proof.
  destruct (C1_Get_read_through main_go (fresh true) 7 (fresh_ready true))
    as (r & u' & tr & E & Hr & Hu & _).
  exists r, u', tr. repeat split; assumption.
Defined.

(** C2.  On a constructed repository [Store(K, R)] returns; its events are
    the write of the backing store followed by the update of the cache, and
    when it returns both hold [R] under [K] and no lock is held.  [Get(K)]
    right after it returns [(R, true)]. *)
Theorem C2_Store_then_Get (v : variant) (u : UserRepo) (id : Z) (user : User) :
  ready u ->
  ∃ u1 u2 tr2,
    Store v id user u =
      Ret tt u1 (db_write_events v id ++ update_events (isCacheSM u) id) ∧
    find (db u1) id = Some user ∧
    find (cache u1) id = Some user ∧
    ready u1 ∧
    Get v id u1 = Ret (user, true) u2 tr2.
Proof.
  intros H. rewrite (Store_ready v u id user H).
  pose proof (db_put_ready u id user H) as H1.
  pose proof (cache_put_ready _ id user H1) as H2.
  assert (Hc : find (cache (cache_put id user (db_put id user u))) id = Some user).
  { rewrite find_cache_put by exact H1. destruct (decide (id = id)); congruence. }
  assert (Hd : find (db (cache_put id user (db_put id user u))) id = Some user).
  { rewrite db_cache_put, find_db_put by exact H.
    destruct (decide (id = id)); congruence. }
  eexists _, _, _. split; [reflexivity|].
  split; [exact Hd|]. split; [exact Hc|]. split; [exact H2|].
  rewrite (Get_ready v _ id H2), Hc. reflexivity.
Qed.

Lemma C2_Store_then_Get_witness :
  ∃ u1 u2 tr2,
    Store part_001 3 {| Name := "Ivan" |} (fresh false) =
      Ret tt u1 [DbLock; DbWrite 3; DbUnlock; RwmLock; RwmWrite 3; RwmUnlock] ∧
    Get part_001 3 u1 = Ret ({| Name := "Ivan" |}, true) u2 tr2.
Proof.
  destruct (C2_Store_then_Get part_001 (fresh false) 3 {| Name := "Ivan" |}
              (fresh_ready false)) as (u1 & u2 & tr2 & E1 & _ & _ & _ & E2).
  exists u1, u2, tr2. split; assumption.
Defined.

Lemma cache_cache_put (u : UserRepo) (id : Z) (user : User) :
  ready u -> cache (cache_put id user u) = map_write (cache u) id user.
Proof.
  intros H. open_ready u H. unfold cache_put, cache; cbn.
  destruct sm0; reflexivity.
Qed.

Lemma exec_same_contents (v : variant) (x : op) (u1 u2 : UserRepo) :
  ready u1 -> ready u2 -> same_contents u1 u2 ->
  ∃ r u1' t1 u2' t2,
    exec v x u1 = Ret r u1' t1 ∧ exec v x u2 = Ret r u2' t2 ∧
    ready u1' ∧ ready u2' ∧ same_contents u1' u2'.
Proof.
  intros H1 H2 [Hd Hc]. destruct x as [id | id user]; unfold exec, bind, ret.
  - rewrite (Get_ready v u1 id H1), (Get_ready v u2 id H2), <- Hc, <- Hd.
    destruct (find (cache u1) id) as [x|]; [|destruct (find (db u1) id) as [x|]]; cbn.
    + eexists _, _, _, _, _. split; [reflexivity|]. split; [reflexivity|].
      split; [exact H1|]. split; [exact H2|]. split; assumption.
    + eexists _, _, _, _, _. split; [reflexivity|]. split; [reflexivity|].
      split; [by apply cache_put_ready|]. split; [by apply cache_put_ready|].
      split.
      * by rewrite !db_cache_put.
      * rewrite !cache_cache_put by assumption. by rewrite Hc.
    + eexists _, _, _, _, _. split; [reflexivity|]. split; [reflexivity|].
      split; [exact H1|]. split; [exact H2|]. split; assumption.
  - rewrite (Store_ready v u1 id user H1), (Store_ready v u2 id user H2). cbn.
    pose proof (db_put_ready u1 id user H1). pose proof (db_put_ready u2 id user H2).
    eexists _, _, _, _, _. split; [reflexivity|]. split; [reflexivity|].
    split; [by apply cache_put_ready|]. split; [by apply cache_put_ready|].
    split.
    + rewrite !db_cache_put. unfold db_put; cbn. by rewrite Hd.
    + rewrite !cache_cache_put by assumption. rewrite !cache_db_put. by rewrite Hc.
Qed.

Lemma run_same_contents (v : variant) (xs : list op) (u1 u2 : UserRepo) :
  ready u1 -> ready u2 -> same_contents u1 u2 ->
  ∃ rs u1' t1 u2' t2,
    run v xs u1 = Ret rs u1' t1 ∧ run v xs u2 = Ret rs u2' t2.
Proof.
  revert u1 u2. induction xs as [|x xs IH]; intros u1 u2 H1 H2 Hs.
  - by exists [], u1, [], u2, [].
  - destruct (exec_same_contents v x u1 u2 H1 H2 Hs)
      as (r & u1' & t1 & u2' & t2 & E1 & E2 & H1' & H2' & Hs').
    destruct (IH u1' u2' H1' H2' Hs') as (rs & w1 & s1 & w2 & s2 & F1 & F2).
    exists (r :: rs), w1, (t1 ++ s1 ++ []), w2, (t2 ++ s2 ++ []).
    split; eapply run_cons; eassumption.
Qed.

(** C3.  From a fresh repository, every finite sequence of [Store] and [Get]
    calls made one after another returns under both strategies, and the two
    runs give the same list of results: the same [found] and the same record
    at every [Get]. *)
Theorem C3_strategy_equivalence (v : variant) (xs : list op) :
  ∃ rs u1 t1 u2 t2,
    run v xs (fresh true) = Ret rs u1 t1 ∧
    run v xs (fresh false) = Ret rs u2 t2.
Proof.
  apply run_same_contents; try apply fresh_ready.
  split; reflexivity.
Qed.

Lemma exec_absent (v : variant) (id : Z) (x : op) (u : UserRepo) r u' tr :
  stores_to id x = false ->
  ready u -> absent id u -> exec v x u = Ret r u' tr -> absent id u'.
Proof.
  intros Hx H [Hd Hc] E. destruct x as [id' | id' user]; unfold exec, bind, ret in E.
  - rewrite (Get_ready v u id' H) in E.
    destruct (find (cache u) id') as [x|] eqn:Ec'; [|destruct (find (db u) id') as [x|] eqn:Ed'];
      cbn in E; injection E as <- <- <-; try (split; assumption).
    split.
    + by rewrite db_cache_put.
    + rewrite find_cache_put by exact H. destruct (decide (id' = id)); [congruence | exact Hc].
  - rewrite (Store_ready v u id' user H) in E. cbn in E. injection E as <- <-.
    cbn in Hx. apply bool_decide_eq_false in Hx.
    pose proof (db_put_ready u id' user H) as H1. split.
    + rewrite db_cache_put, find_db_put by exact H.
      destruct (decide (id' = id)); [congruence | exact Hd].
    + rewrite find_cache_put by exact H1. rewrite cache_db_put.
      destruct (decide (id' = id)); [congruence | exact Hc].
Qed.

Lemma run_absent (v : variant) (id : Z) (xs : list op) (u : UserRepo) rs u' tr :
  forallb (fun x => negb (stores_to id x)) xs = true ->
  ready u -> absent id u -> run v xs u = Ret rs u' tr -> ready u' ∧ absent id u'.
Proof.
  revert u rs tr. induction xs as [|x xs IH]; intros u rs tr Hxs H Ha E.
  - cbn in E. injection E as <- <- <-. by split.
  - cbn in Hxs. apply andb_true_iff in Hxs as [Hx Hxs].
    apply negb_true_iff in Hx.
    destruct (exec_ready v x u H) as (r & u1 & tr1 & E1 & H1).
    cbn in E. unfold bind in E. rewrite E1 in E.
    destruct (run v xs u1) as [rs2 u2 tr2| |] eqn:E2; try discriminate.
    cbn in E. injection E as <- <- <-.
    eapply IH; [exact Hxs | exact H1 | | exact E2].
    exact (exec_absent v id x u r u1 tr1 Hx H Ha E1).
Qed.

(** C4.  [Get] and [Store] have no error outcome: on a constructed
    repository each of them returns, so every sequence of them from a fresh
    repository returns; the result of [Get] is a record and a boolean.  As
    long as no [Store(K, _)] has been made, [Get(K)] returns
    [found = false]. *)
Theorem C4_miss_is_a_result (v : variant) (b : bool) :
  (∀ u id user, ready u ->
     (∃ r u' tr, Get v id u = Ret r u' tr) ∧
     (∃ u' tr, Store v id user u = Ret tt u' tr)) ∧
  (∀ xs, ∃ rs u tr, run v xs (fresh b) = Ret rs u tr) ∧
  (∀ xs id, forallb (fun x => negb (stores_to id x)) xs = true ->
     ∃ rs u tr u' tr',
       run v xs (fresh b) = Ret rs u tr ∧
       Get v id u = Ret (User_zero, false) u' tr').
Proof.
  split; [|split].
  - intros u id user H. split.
    + destruct (exec_ready v (OpGet id) u H) as (r & u' & tr & E & _).
      unfold exec, bind, ret in E.
      destruct (Get v id u) as [[x ok] u1 tr1| |]; try discriminate. eauto.
    + rewrite (Store_ready v u id user H). eauto.
  - intros xs. destruct (run_ready v xs (fresh b) (fresh_ready b)) as (rs & u & tr & E & _).
    eauto.
  - intros xs id Hxs.
    destruct (run_ready v xs (fresh b) (fresh_ready b)) as (rs & u & tr & E & _).
    assert (Ha : absent id (fresh b)).
    { unfold absent, cache, find, fresh; cbn. destruct b; split; apply lookup_empty. }
    destruct (run_absent v id xs (fresh b) rs u tr Hxs (fresh_ready b) Ha E) as [Hu [Hd Hc]].
    exists rs, u, tr. rewrite (Get_ready v u id Hu), Hc, Hd. eauto.
Qed.

Lemma C4_miss_is_a_result_witness :
  ∃ rs u tr u' tr',
    run part_000 [OpStore 1 {| Name := "Ivan" |}; OpGet 1] (fresh true) = Ret rs u tr ∧
    Get part_000 2 u = Ret (User_zero, false) u' tr'.
Proof.
  apply (C4_miss_is_a_result part_000 true). reflexivity.
Defined.

Lemma getFromCache_miss_zero (u : UserRepo) (id : Z) x u' tr :
  getFromCache id u = Ret (x, false) u' tr -> x = User_zero.
Proof.
  destruct u as [o0 mu0 db0 sm0 csm0 [w0 n0] crw0 lg0].
  unfold getFromCache, cacheSM_Load, cacheRWM_read, rwm_RLock, rwm_RUnlock,
    logger_Println, map_read, bind, gets, modify, emit, ret, panic, block; cbn.
  destruct sm0; cbn.
  - destruct (csm0 !! id); cbn; destruct lg0; cbn; congruence.
  - destruct w0; cbn; [discriminate|].
    destruct crw0 as [g|]; cbn; [destruct (g !! id); cbn|];
      destruct lg0; cbn; congruence.
Qed.

(** C9.  Whenever [Get] returns [found = false], in any variant and from any
    state of the struct, the record it returns is the zero value, whose name
    is the empty string. *)
Theorem C9_miss_returns_zero (v : variant) (u : UserRepo) (id : Z)
    (x : User) (u' : UserRepo) (tr : list event) :
  Get v id u = Ret (x, false) u' tr -> x = User_zero ∧ Name x = "".
Proof.
  intros E. enough (x = User_zero) as -> by (split; reflexivity).
  assert (Hv : Get v id = UserRepo_Get id ∨ Get v id = Part000.UserRepo_Get id)
    by (destruct v; auto).
  destruct Hv as [Hv | Hv]; rewrite Hv in E; clear Hv.
  - unfold UserRepo_Get, bind in E.
    destruct (getFromCache id u) as [[y ok] u1 t1| |] eqn:Ec; try discriminate.
    destruct ok; [cbn in E; discriminate|].
    unfold dbMutex_Lock, dbMutex_Unlock, db_read, storeInCache, logger_Println,
      bind, gets, modify, emit, ret, panic, block in E.
    destruct (dbMutex u1); [discriminate|]. cbn in E.
    destruct (map_read (db u1) id) as [z ok] eqn:Er. cbn in E.
    destruct ok; cbn in E.
    + destruct u1 as [o1 mu1 db1 [] csm1 [[] [|n1]] [crw1|] [lg1|]];
        cbn in E; discriminate.
    + destruct (logger u1); cbn in E; congruence.
  - unfold Part000.UserRepo_Get, bind in E.
    destruct (getFromCache id u) as [[y ok] u1 t1| |] eqn:Ec; try discriminate.
    destruct ok; [cbn in E; discriminate|].
    unfold db_read, storeInCache, logger_Println,
      bind, gets, modify, emit, ret, panic, block in E. cbn in E.
    destruct (map_read (db u1) id) as [z ok] eqn:Er. cbn in E.
    destruct ok; cbn in E.
    + destruct u1 as [o1 mu1 db1 [] csm1 [[] [|n1]] [crw1|] [lg1|]];
        cbn in E; discriminate.
    + destruct (logger u1); cbn in E; congruence.
Qed.

Lemma C9_miss_returns_zero_witness :
  User_zero = User_zero ∧ Name User_zero = "".
Proof.
  apply (C9_miss_returns_zero main_go (fresh false) 5 User_zero (fresh false)
           [RwmRLock; RwmRead 5; RwmRUnlock; Println notFoundInCache;
            DbLock; DbRead 5; DbUnlock; Println notFoundInDB]).
  reflexivity.
Defined.

Lemma exec_coherent (v : variant) (x : op) (u : UserRepo) r u' tr :
  ready u -> coherent u -> exec v x u = Ret r u' tr -> coherent u'.
Proof.
  intros H Hco E. destruct x as [id | id user]; unfold exec, bind, ret in E.
  - rewrite (Get_ready v u id H) in E.
    destruct (find (cache u) id) as [x|] eqn:Ec; [|destruct (find (db u) id) as [x|] eqn:Ed];
      cbn in E; injection E as <- <- <-; try exact Hco.
    intros id' y. rewrite db_cache_put, find_cache_put by exact H.
    destruct (decide (id = id')) as [<-|]; [congruence | apply Hco].
  - rewrite (Store_ready v u id user H) in E. cbn in E. injection E as <- <-.
    pose proof (db_put_ready u id user H) as H1.
    intros id' y. rewrite db_cache_put, find_cache_put, find_db_put, cache_db_put
      by assumption.
    destruct (decide (id = id')); [congruence | apply Hco].
Qed.

Lemma coherent_subseteq (u : UserRepo) :
  ready u -> coherent u ->
  ∃ c d : gmap Z User, cache u = Some c ∧ db u = Some d ∧ c ⊆ d.
Proof.
  intros H Hco. unfold coherent in Hco. open_ready u H.
  unfold cache, find in *; cbn in *. destruct sm0.
  - exists csm0, db0. repeat split. apply map_subseteq_spec. exact Hco.
  - exists crw0, db0. repeat split. apply map_subseteq_spec. exact Hco.
Qed.

(** C10.  The cache in use is contained in the backing store, with the same
    records: this holds of a fresh repository under either strategy, every
    [Get] and every [Store] on a constructed repository keeps it, and so it
    holds after every sequence of operations made one after another from a
    fresh repository. *)
Theorem C10_cache_within_store (v : variant) :
  (∀ b xs, ∃ rs u tr (c d : gmap Z User),
      run v xs (fresh b) = Ret rs u tr ∧
      coherent u ∧ cache u = Some c ∧ db u = Some d ∧ c ⊆ d) ∧
  (∀ x u, ready u -> coherent u ->
      ∃ r u' tr, exec v x u = Ret r u' tr ∧ ready u' ∧ coherent u').
Proof.
  split.
  - intros b xs.
    destruct (run_ready v xs (fresh b) (fresh_ready b)) as (rs & u & tr & E & Hu).
    assert (Hf : coherent (fresh b)).
    { intros id x. unfold cache, find, fresh; cbn. destruct b; cbn;
        rewrite lookup_empty; discriminate. }
    assert (Hco : coherent u).
    { eapply (run_invariant coherent v); [|apply fresh_ready|exact Hf|exact E].
      intros x0 u0 r0 u0' tr0 Hr Hc He.
      exact (exec_coherent v x0 u0 r0 u0' tr0 Hr Hc He). }
    destruct (coherent_subseteq u Hu Hco) as (c & d & Hc & Hd & Hcd).
    exists rs, u, tr, c, d. auto.
  - intros x u H Hco.
    destruct (exec_ready v x u H) as (r & u' & tr & E & H').
    exists r, u', tr. split; [exact E|]. split; [exact H'|].
    exact (exec_coherent v x u r u' tr H Hco E).
Qed.

Lemma fresh_coherent (b : bool) : coherent (fresh b).
Proof.
  intros id x. unfold cache, find, fresh; cbn.
  destruct b; cbn; rewrite lookup_empty; discriminate.
Qed.

Lemma C10_cache_within_store_witness :
  ∃ r u' tr,
    exec main_go (OpStore 4 {| Name := "User-4" |}) (fresh true) = Ret r u' tr ∧
    ready u' ∧ coherent u'.
Proof.
  apply (C10_cache_within_store main_go).
  - apply fresh_ready.
  - apply fresh_coherent.
Defined.

(** ** The lock of the backing store *)

(** C5, as amended.  In [main.go] and [part_001] the events of [Get] and of
    [Store] on a constructed repository keep every read and write of the
    backing store between [dbMutex.Lock()] and [dbMutex.Unlock()], and the
    lock is free when the call returns.  In [part_000] there is no such
    lock: the same calls read and write the backing store with no lock
    event at all. *)
Theorem C5_db_lock_by_variant (v : variant) (u : UserRepo) (id : Z) (user : User) :
  ready u ->
  ∃ r u1 tr1 u2 tr2,
    Get v id u = Ret r u1 tr1 ∧ Store v id user u = Ret tt u2 tr2 ∧
    dbMutex u1 = false ∧ dbMutex u2 = false ∧
    In (DbWrite id) tr2 ∧
    (find (cache u) id = None -> In (DbRead id) tr1) ∧
    match v with
    | main_go | part_001 =>
        db_guarded false tr1 = true ∧ db_guarded false tr2 = true
    | part_000 =>
        ¬ In DbLock tr1 ∧ ¬ In DbUnlock tr1 ∧ ¬ In DbLock tr2 ∧ ¬ In DbUnlock tr2
    end.
Proof.
  intros H. rewrite (Get_ready v u id H), (Store_ready v u id user H).
  pose proof (db_put_ready u id user H) as H1.
  pose proof (cache_put_ready _ id user H1) as H2.
  destruct (find (cache u) id) as [x|] eqn:Ec; [|destruct (find (db u) id) as [x|] eqn:Ed];
    eexists _, _, _, _, _; (split; [reflexivity|]); (split; [reflexivity|]);
    (split; [first [apply H | apply (cache_put_ready u id x H)]|]);
    (split; [apply H2|]);
    destruct v, (isCacheSM u); cbn; intuition congruence.
Qed.

Lemma C5_db_lock_by_variant_witness :
  ∃ r u1 tr1 u2 tr2,
    Get main_go 1 (fresh false) = Ret r u1 tr1 ∧
    Store main_go 1 {| Name := "Ivan" |} (fresh false) = Ret tt u2 tr2 ∧
    db_guarded false tr1 = true ∧ db_guarded false tr2 = true.
Proof.
  destruct (C5_db_lock_by_variant main_go (fresh false) 1 {| Name := "Ivan" |}
              (fresh_ready false))
    as (r & u1 & tr1 & u2 & tr2 & E1 & E2 & _ & _ & _ & _ & G1 & G2).
  exists r, u1, tr1, u2, tr2. auto.
Defined.

(** C5 as stated fails on [part_000]: [Get(1)] on a fresh repository reads
    the backing store while no lock is held. *)
Lemma C5_part_000_reads_unlocked :
  Get part_000 1 (fresh true) =
    Ret (User_zero, false) (fresh true)
      [SmLoad 1; Println notFoundInCache; DbRead 1; Println notFoundInDB] ∧
  db_guarded false [SmLoad 1; Println notFoundInCache; DbRead 1; Println notFoundInDB]
    = false ∧
  ¬ (∀ v u id r u' tr, ready u -> Get v id u = Ret r u' tr -> db_guarded false tr = true).
Proof.
  split; [reflexivity|]. split; [reflexivity|].
  intros Hall.
  specialize (Hall part_000 (fresh true) 1 _ _ _ (fresh_ready true) eq_refl).
  discriminate Hall.
Qed.

(** ** The strategy flag *)

Lemma keeps_flag_ret {A} (a : A) : keeps_flag (ret a).
Proof. intros s x s' tr E. injection E as <- <- <-. reflexivity. Qed.

Lemma keeps_flag_bind {A B} (m : M UserRepo A) (k : A -> M UserRepo B) :
  keeps_flag m -> (∀ a, keeps_flag (k a)) -> keeps_flag (bind m k).
Proof.
  intros Hm Hk s b s2 tr E. unfold bind in E.
  destruct (m s) as [a s1 t1| |] eqn:E1; try discriminate.
  destruct (k a s1) as [b' s2' t2| |] eqn:E2; try discriminate.
  injection E as <- <- <-.
  rewrite (Hk a s1 b' s2' t2 E2). exact (Hm s a s1 t1 E1).
Qed.

Lemma keeps_flag_gets {A} (f : UserRepo -> A) : keeps_flag (gets f).
Proof. intros s x s' tr E. injection E as <- <- <-. reflexivity. Qed.

Lemma keeps_flag_emit (e : event) : keeps_flag (emit e).
Proof. intros s x s' tr E. injection E as <- <- <-. reflexivity. Qed.

Lemma keeps_flag_panic {A} : keeps_flag (@panic UserRepo A).
Proof. intros s x s' tr E. discriminate E. Qed.

Lemma keeps_flag_block {A} : keeps_flag (@block UserRepo A).
Proof. intros s x s' tr E. discriminate E. Qed.

Lemma keeps_flag_modify (f : UserRepo -> UserRepo) :
  (∀ s, isCacheSM (f s) = isCacheSM s) -> keeps_flag (modify f).
Proof. intros Hf s x s' tr E. injection E as <- <- <-. apply Hf. Qed.

Ltac keeps :=
  repeat first
    [ apply keeps_flag_ret | apply keeps_flag_gets | apply keeps_flag_emit
    | apply keeps_flag_panic | apply keeps_flag_block
    | apply keeps_flag_modify; intros; reflexivity
    | apply keeps_flag_bind; [|intros]
    | match goal with
      | |- keeps_flag (match ?c with _ => _ end) => destruct c
      | |- keeps_flag (let '(_, _) := ?c in _) => destruct c
      end ].

Lemma getFromCache_flag (id : Z) : keeps_flag (getFromCache id).
Proof.
  unfold getFromCache, cacheSM_Load, cacheRWM_read, rwm_RLock, rwm_RUnlock,
    logger_Println. keeps.
Qed.

Lemma storeInCache_flag (id : Z) (user : User) : keeps_flag (storeInCache id user).
Proof.
  unfold storeInCache, cacheSM_Store, cacheRWM_write, rwm_Lock, rwm_Unlock. keeps.
Qed.

Lemma Get_flag (v : variant) (id : Z) : keeps_flag (Get v id).
Proof.
  pose proof (getFromCache_flag id). pose proof (storeInCache_flag id).
  destruct v; unfold Get, UserRepo_Get, Part000.UserRepo_Get, db_read,
    dbMutex_Lock, dbMutex_Unlock, logger_Println; keeps; auto.
Qed.

Lemma Store_flag (v : variant) (id : Z) (user : User) : keeps_flag (Store v id user).
Proof.
  pose proof (storeInCache_flag id user).
  destruct v; unfold Store, UserRepo_Store, Part000.UserRepo_Store, db_write,
    dbMutex_Lock, dbMutex_Unlock; keeps; auto.
Qed.

(** Neither [Get] nor [Store] writes the strategy flag, from any state. *)
Lemma exec_flag (v : variant) (x : op) (u : UserRepo) r u' tr :
  exec v x u = Ret r u' tr -> isCacheSM u' = isCacheSM u.
Proof.
  revert u r u' tr. change (keeps_flag (exec v x)).
  pose proof (Get_flag v). pose proof (Store_flag v).
  destruct x; unfold exec; keeps; auto.
Qed.

Lemma run_flag (v : variant) (xs : list op) (u : UserRepo) rs u' tr :
  run v xs u = Ret rs u' tr -> isCacheSM u' = isCacheSM u.
Proof.
  revert u rs tr. induction xs as [|x xs IH]; intros u rs tr E.
  - cbn in E. injection E as <- <- <-. reflexivity.
  - cbn in E. unfold bind in E.
    destruct (exec v x u) as [r u1 t1| |] eqn:E1; try discriminate.
    destruct (run v xs u1) as [rs2 u2 t2| |] eqn:E2; try discriminate.
    cbn in E. injection E as <- <- <-.
    rewrite (IH _ _ _ E2). exact (exec_flag v x u r u1 t1 E1).
Qed.

Lemma on_UserS_o {A} (m : M UserServer A) (a : App) x a' tr :
  on_UserS m a = Ret x a' tr -> app_o a' = app_o a.
Proof.
  unfold on_UserS. destruct (m (UserS a)) as [y s t| |]; try discriminate.
  intros E. injection E as <- <- <-. reflexivity.
Qed.

Lemma app_exec_o (v : variant) (x : op) (a : App) r a' tr :
  app_exec v x a = Ret r a' tr -> app_o a' = app_o a.
Proof.
  destruct x as [id | id user]; unfold app_exec, bind, ret.
  - destruct (on_UserS (UserServer_Get v id) a) as [[y ok] a1 t1| |] eqn:E;
      try discriminate.
    intros E'. injection E' as <- <- <-. exact (on_UserS_o _ _ _ _ _ E).
  - destruct (on_UserS (UserServer_Store v id user) a) as [[] a1 t1| |] eqn:E;
      try discriminate.
    intros E'. injection E' as <- <- <-. exact (on_UserS_o _ _ _ _ _ E).
Qed.

Lemma app_run_o (v : variant) (xs : list op) (a : App) a' tr :
  app_run v xs a = Ret tt a' tr -> app_o a' = app_o a.
Proof.
  revert a tr. induction xs as [|x xs IH]; intros a tr E.
  - injection E as <- <-. reflexivity.
  - cbn in E. unfold bind in E.
    destruct (app_exec v x a) as [r a1 t1| |] eqn:E1; try discriminate.
    destruct (app_run v xs a1) as [[] a2 t2| |] eqn:E2; try discriminate.
    injection E as <- <-.
    rewrite (IH a1 t2 E2). exact (app_exec_o v x a r a1 t1 E1).
Qed.

(** C6, as amended.  No sequence of [Get] and [Store] calls changes the
    strategy flag of the repository.  An application that [CreateApp]
    returned has its [sync.Once] fired, calls through [app.UserS] keep it
    so, and on every such application a further [App.Init] returns with the
    repository (flag and contents) and the log buffer as they were: only the
    application's own copy of the flag is overwritten.  A further
    [UserRepo.Init], however, always returns and stores the flag it is
    given: the assignment is outside the guard, which covers only the
    allocation of the maps. *)
Theorem C6_flag_after_construction (v : variant) (b b' : bool) :
  (∀ xs u rs u' tr, run v xs u = Ret rs u' tr -> isCacheSM u' = isCacheSM u) ∧
  (app_o (fresh_app b) = true ∧
   (∀ xs a a' tr, app_run v xs a = Ret tt a' tr -> app_o a' = app_o a) ∧
   (∀ a, app_o a = true ->
      ∃ a', App_Init b' a = Ret tt a' [] ∧
            UserS a' = UserS a ∧ repo_of a' = repo_of a ∧ buf a' = buf a ∧
            app_o a' = true ∧ app_isCacheSM a' = b')) ∧
  (∀ l u, ∃ u', UserRepo_Init b' l u = Ret tt u' [] ∧ isCacheSM u' = b' ∧
                (o u = true -> db u' = db u ∧ cacheRWM u' = cacheRWM u
                                ∧ cacheSM u' = cacheSM u)).
Proof.
  split; [|split].
  - intros xs u rs u' tr. apply run_flag.
  - split; [reflexivity|]. split; [intros xs a a' tr; apply app_run_o|].
    intros a Ha. destruct a as [o0 buf0 lg0 us0 sm0]. cbn in Ha. subst o0.
    eexists. split; [reflexivity|]. repeat split.
  - intros l u. destruct u as [[] mu0 db0 sm0 csm0 rw0 crw0 lg0];
      eexists; (split; [reflexivity|]); split; try reflexivity;
      cbn; intros; try discriminate; auto.
Qed.

Lemma C6_flag_after_construction_witness :
  isCacheSM (cache_put 1 {| Name := "Ivan" |} (db_put 1 {| Name := "Ivan" |} (fresh true)))
  = isCacheSM (fresh true).
Proof.
  apply (proj1 (C6_flag_after_construction main_go true false)
           [OpStore 1 {| Name := "Ivan" |}] (fresh true) [ResStore] _
           [DbLock; DbWrite 1; DbUnlock; SmStore 1]).
  reflexivity.
Defined.

(** C6 as stated fails: a second [UserRepo.Init] with the other value on a
    repository constructed with the flag [true] leaves the flag [false]. *)
Lemma C6_second_Init_overwrites_flag :
  ∃ u',
    UserRepo_Init false (Some (mkLogger "" LstdFlags)) (fresh true) = Ret tt u' [] ∧
    isCacheSM (fresh true) = true ∧ isCacheSM u' = false.
Proof. eexists. split; [reflexivity|]. split; reflexivity. Qed.

(** ** The load generator *)









(** The workers of [part_001], evaluated: 1800 reads then 200 writes under
    [ScenarioHeavyRead], 1000 and 1000 under [ScenarioMixedReadWrite], and
    1800 writes then 200 reads under [ScenarioHeavyWrite]. *)
Lemma part_001_workers (id : Z) :
  map kind_of (ScenarioHeavyRead_worker id) = replicate 1800 Read ++ replicate 200 Write ∧
  map kind_of (ScenarioMixedReadWrite_worker id) = replicate 1000 Read ++ replicate 1000 Write ∧
  map kind_of (ScenarioHeavyWrite_worker id) = replicate 1800 Write ++ replicate 200 Read.
Proof. repeat split; vm_compute; reflexivity. Qed.














(** At quota 200 the literal [0.9] gives 180 reads, although the value the
    binary64 holds, a little above nine tenths, times 200 has ceiling 181:
    the quotient [180/200] rounds to that very binary64, and the test is
    strict. *)
Lemma reads_of_200_at_0_9 :
  let scale := mkScale "small" 10000 50 0.9%float 0.1%float in
  reads (worker scale 0) = 180%nat ∧
  Qfloor (float_Q (readRatio scale) * inject_Z 200) = 180 ∧
  Qceiling (float_Q (readRatio scale) * inject_Z 200) = 181.
Proof. cbv zeta. repeat split; vm_compute; reflexivity. Qed.




(** ** The benchmark driver *)

Lemma int64_small (z : Z) : - 2 ^ 63 <= z < 2 ^ 63 -> int64 z = z.
Proof. intros H. unfold int64. rewrite Z.mod_small; lia. Qed.

Section DriverFacts.

Variable go : list (list op) -> M App unit.
Variable Since : nat -> Z.
Variable Duration_String : Z -> string.

Lemma BenchmarkScenario_loop_runs (b : bool) (scale : Scale) (n i : nat) (total : Z) :
  0 <= concurrency scale ->
  (∃ a' tr, go (workers scale) (fresh_app b) = Ret tt a' tr) ->
  BenchmarkScenario_loop go Since n i b scale total =
  Some (foldl (fun t k => int64 (t + Since k)) total (seq i n),
        replicate n (Loaded (fresh_app b))).
Proof.
  intros Hc (a' & tr & Hgo). revert i total.
  induction n as [|n IH]; intros i total; [reflexivity|].
  cbn [BenchmarkScenario_loop]. unfold D_CreateApp. rewrite CreateApp_fresh.
  unfold D_then at 1. unfold RunScenario, load.
  destruct (concurrency scale <? 0) eqn:E; [apply Z.ltb_lt in E; lia|].
  fold (workers scale). rewrite Hgo. unfold D_then at 1.
  rewrite IH. reflexivity.
Qed.

Lemma runScenario_loop_runs (fn : D unit) (evs : list driver_event) (n i : nat) (total : Z) :
  fn = Some (tt, evs) ->
  runScenario_loop Since n i fn total =
  Some (foldl (fun t k => int64 (t + Since k)) total (seq i n),
        concat (replicate n evs)).
Proof.
  intros ->. revert i total.
  induction n as [|n IH]; intros i total; [reflexivity|].
  cbn [runScenario_loop]. unfold D_then at 1. rewrite IH. reflexivity.
Qed.

End DriverFacts.

Lemma total10_sum (Since : nat -> Z) :
  (∀ i, (i < 10)%nat -> 0 <= Since i < 2 ^ 59) ->
  total10 Since = foldr Z.add 0 (map Since (seq 0 10)).
Proof.
  intros H. unfold total10. cbn [seq foldl map foldr].
  pose proof (H 0%nat ltac:(lia)). pose proof (H 1%nat ltac:(lia)).
  pose proof (H 2%nat ltac:(lia)). pose proof (H 3%nat ltac:(lia)).
  pose proof (H 4%nat ltac:(lia)). pose proof (H 5%nat ltac:(lia)).
  pose proof (H 6%nat ltac:(lia)). pose proof (H 7%nat ltac:(lia)).
  pose proof (H 8%nat ltac:(lia)). pose proof (H 9%nat ltac:(lia)).
  repeat match goal with
         | |- context [int64 ?z] =>
             lazymatch z with
             | context [int64 _] => fail
             | _ => rewrite (int64_small z) by lia
             end
         end.
  lia.
Qed.

Lemma app_exec_ready (v : variant) (x : op) (a : App) :
  app_ready a -> ∃ r a' tr, app_exec v x a = Ret r a' tr ∧ app_ready a'.
Proof.
  intros (u & Hu & H). destruct a as [o0 buf0 lg0 us0 sm0]. cbn in Hu. subst us0.
  destruct x as [id | id user];
    unfold app_exec, on_UserS, UserServer_Get, UserServer_Store, UserService_Get,
      UserService_Store, through, bind, ret; cbn.
  - destruct (exec_ready v (OpGet id) u H) as (r & u' & tr & E & H').
    unfold exec, bind, ret in E.
    destruct (Get v id u) as [[y ok] u1 t1| |]; try discriminate.
    injection E as <- <- <-. cbn.
    eexists _, _, _. split; [reflexivity|]. exists u1. split; [reflexivity | exact H'].
  - destruct (exec_ready v (OpStore id user) u H) as (r & u' & tr & E & H').
    unfold exec, bind, ret in E.
    destruct (Store v id user u) as [[] u1 t1| |]; try discriminate.
    injection E as <- <- <-. cbn.
    eexists _, _, _. split; [reflexivity|]. exists u1. split; [reflexivity | exact H'].
Qed.

(** Run in turn, the goroutines of any load return on a constructed
    application. *)
Lemma in_turn_returns (v : variant) (ws : list (list op)) (a : App) :
  app_ready a -> ∃ a' tr, in_turn v ws a = Ret tt a' tr.
Proof.
  unfold in_turn. generalize (concat ws) as xs. intros xs. revert a.
  induction xs as [|x xs IH]; intros a H.
  - exists a, []. reflexivity.
  - destruct (app_exec_ready v x a H) as (r & a1 & t1 & E1 & H1).
    destruct (IH a1 H1) as (a2 & t2 & E2).
    exists a2, (t1 ++ t2). cbn. unfold bind. rewrite E1, E2. reflexivity.
Qed.

Lemma fresh_app_ready (b : bool) : app_ready (fresh_app b).
Proof. exists (fresh b). split; [reflexivity | apply fresh_ready]. Qed.

Lemma D_CreateApp_fresh (b : bool) : D_CreateApp b = Some (fresh_app b, []).
Proof. reflexivity. Qed.

Lemma load_result (go : list (list op) -> M App unit) (ws : list (list op))
    (app : App) (r : unit * list driver_event) :
  load go ws app = Some r -> r = (tt, [Loaded app]).
Proof.
  unfold load. destruct (go ws app) as [[] a' tr| |]; intros E;
    [injection E as <-; reflexivity | discriminate | discriminate].
Qed.

Lemma D_then_load (go : list (list op) -> M App unit) (app : App)
    (f : App -> D unit) (r : unit * list driver_event) :
  (f = ScenarioHeavyRead go ∨ f = ScenarioHeavyWrite go ∨ f = ScenarioMixedReadWrite go) ->
  D_then (Some (app, [])) f = Some r -> r = (tt, [Loaded app]).
Proof.
  intros Hf. unfold D_then.
  destruct (f app) as [[[] t]|] eqn:E; [|discriminate].
  intros Hr. injection Hr as <-.
  destruct Hf as [-> | [-> | ->]];
    unfold ScenarioHeavyRead, ScenarioHeavyWrite, ScenarioMixedReadWrite in E;
    apply load_result in E; exact E.
Qed.

Lemma pretty_10 : pretty 10 = "10".
Proof. vm_compute. reflexivity. Qed.

(** C8, as amended.  Each driver makes exactly ten iterations, every one of
    them on the application that [CreateApp] has just returned, whose store
    and caches are empty, and then prints once.  In [part_001] the line is
    "<name> average time over 10 runs: <duration>"; in [main.go] the name of
    the scale stands in parentheses after the scenario name.  The duration
    is the [int64] total of the ten measurements divided by 10 (Go's
    truncating division), and the total is their sum when it fits. *)
Theorem C8_benchmark_report (go : list (list op) -> M App unit) (Since : nat -> Z)
    (Duration_String : Z -> string) (name0 : string) (b : bool) :
  (∀ scale,
     0 <= concurrency scale ->
     (∃ a' tr, go (workers scale) (fresh_app b) = Ret tt a' tr) ->
     BenchmarkScenario go Since Duration_String name0 b scale =
     Some (tt, replicate 10 (Loaded (fresh_app b)) ++
               [Printf (name0 +:+ " (" +:+ name scale +:+ ") average time over 10 runs: "
                        +:+ Duration_String (Z.quot (total10 Since) 10) +:+ "
")])) ∧
  (∀ fn, fn = Some (tt, [Loaded (fresh_app b)]) ->
     runScenario Since Duration_String name0 fn =
     Some (Z.quot (total10 Since) 10,
           replicate 10 (Loaded (fresh_app b)) ++
           [Printf (name0 +:+ " average time over 10 runs: "
                    +:+ Duration_String (Z.quot (total10 Since) 10) +:+ "
")])) ∧
  (∀ nm fn r, (nm, b, fn) ∈ main_part_001 go -> fn = Some r ->
     r = (tt, [Loaded (fresh_app b)])) ∧
  (repo_of (fresh_app b) = Some (fresh b) ∧
   db (fresh b) = Some ∅ ∧ cache (fresh b) = Some ∅) ∧
  ((∀ i, (i < 10)%nat -> 0 <= Since i < 2 ^ 59) ->
   total10 Since = foldr Z.add 0 (map Since (seq 0 10))).
Proof.
  split; [|split; [|split; [|split]]].
  - intros scale Hc Hgo. unfold BenchmarkScenario, total10.
    rewrite (BenchmarkScenario_loop_runs go Since b scale 10 0 0 Hc Hgo).
    cbv beta iota delta [D_then]. reflexivity.
  - intros fn Hfn. unfold runScenario, total10. cbv zeta.
    change (Z.to_nat 10) with 10%nat.
    rewrite (runScenario_loop_runs Since fn _ 10 0 0 Hfn), pretty_10.
    cbv beta iota delta [D_then]. reflexivity.
  - intros nm fn r Hin Hfn. unfold main_part_001 in Hin.
    rewrite !elem_of_cons, elem_of_nil in Hin.
    destruct Hin as [Hin|[Hin|[Hin|[Hin|[Hin|[Hin|[]]]]]]];
      injection Hin as -> -> ->;
      unfold ScenarioSyncMapHeavyRead, ScenarioSyncMapHeavyWrite,
        ScenarioRWMutexHeavyRead, ScenarioRWMutexHeavyWrite,
        ScenarioSyncMapMixed, ScenarioRWMutexMixed in Hfn;
      rewrite D_CreateApp_fresh in Hfn;
      (apply (D_then_load go) in Hfn; [exact Hfn | auto]).
  - split; [reflexivity|]. split; [reflexivity | destruct b; reflexivity].
  - apply total10_sum.
Qed.

Lemma C8_benchmark_report_witness :
  BenchmarkScenario (in_turn main_go) (fun _ => 1500) pretty "sync.Map mixed read/write"
    true (mkScale "small" 8 4 0.5%float 0.5%float) =
  Some (tt, replicate 10 (Loaded (fresh_app true)) ++
            [Printf ("sync.Map mixed read/write" +:+ " (" +:+ "small"
                     +:+ ") average time over 10 runs: "
                     +:+ pretty (Z.quot (total10 (fun _ => 1500)) 10) +:+ "
")]).
Proof.
  apply (C8_benchmark_report (in_turn main_go) (fun _ => 1500) pretty
           "sync.Map mixed read/write" true).
  - cbn. lia.
  - eexists _, _. vm_compute. reflexivity.
Defined.

(** C8 as stated fails on [main.go]: the line that [BenchmarkScenario]
    prints is not the scenario name followed by " average time over 10
    runs: "; the name of the scale comes in between. *)
Lemma C8_main_go_line_names_the_scale :
  BenchmarkScenario (in_turn main_go) (fun _ => 1500) pretty "sync.Map mixed read/write"
    true (mkScale "small" 8 4 0.5%float 0.5%float) =
  Some (tt, replicate 10 (Loaded (fresh_app true)) ++
            [Printf "sync.Map mixed read/write (small) average time over 10 runs: 1500
"]) ∧
  "sync.Map mixed read/write (small) average time over 10 runs: 1500
" ≠ "sync.Map mixed read/write average time over 10 runs: 1500
".
Proof. split; [vm_compute; reflexivity | discriminate]. Qed.
(** * Further properties of the code *)

(** ** The facade *)

(** X1.  [app.UserS.Get] and [app.UserS.Store] are the repository's [Get]
    and [Store] and nothing else: the same result and the same events, the
    repository behind the two pointers ends as the repository's method left
    it, and the buffer of the application grows by exactly the lines the
    call logged.  When a pointer on the way is nil the call panics. *)
Theorem X1_facade_forwards (v : variant) (a : App) (id : Z) (user : User) :
  match repo_of a with
  | Some u =>
      on_UserS (UserServer_Get v id) a =
        match Get v id u with
        | Ret r u' tr =>
            Ret r (mkApp (app_o a) (buf a ++ printed tr) (app_logger a)
                     {| service := Some {| repo := Some u' |} |} (app_isCacheSM a)) tr
        | Panic => Panic
        | Blocked => Blocked
        end ∧
      on_UserS (UserServer_Store v id user) a =
        match Store v id user u with
        | Ret r u' tr =>
            Ret r (mkApp (app_o a) (buf a ++ printed tr) (app_logger a)
                     {| service := Some {| repo := Some u' |} |} (app_isCacheSM a)) tr
        | Panic => Panic
        | Blocked => Blocked
        end
  | None =>
      on_UserS (UserServer_Get v id) a = Panic ∧
      on_UserS (UserServer_Store v id user) a = Panic
  end.
Proof.
  destruct a as [o0 buf0 lg0 [[[[u|]]|]] sm0]; unfold repo_of; cbn [UserS service repo].
  - unfold on_UserS, UserServer_Get, UserServer_Store, UserService_Get,
      UserService_Store, through; cbn [UserS service repo].
    split.
    + destruct (Get v id u) as [r u' tr| |]; reflexivity.
    + destruct (Store v id user u) as [r u' tr| |]; reflexivity.
  - split; reflexivity.
  - split; reflexivity.
Qed.

(** ** Use before construction *)

(** X2.  On a repository whose logger is nil, [Get] panics before it reaches
    the store (it logs the outcome of the cache lookup on every path),
    unless it blocks first on a write-held [rwm]; on a repository whose
    store map is nil, [Store] panics at the assignment.  The zero
    value [UserRepo{}] is both, and a zero [App] panics at the nil service
    pointer. *)
Theorem X2_unconstructed_panics (v : variant) (u : UserRepo) (id : Z) (user : User) :
  (logger u = None -> writer (rwm u) = false -> Get v id u = Panic) ∧
  (db u = None -> dbMutex u = false -> Store v id user u = Panic) ∧
  Get v id UserRepo_zero = Panic ∧
  Store v id user UserRepo_zero = Panic ∧
  on_UserS (UserServer_Get v id) App_zero = Panic ∧
  on_UserS (UserServer_Store v id user) App_zero = Panic.
Proof.
  split; [|split; [|repeat split; destruct v; reflexivity]].
  - destruct u as [o0 mu0 db0 sm0 csm0 [w0 n0] crw0 lg0]. cbn.
    intros -> ->. destruct v, sm0, crw0 as [g|]; run_go;
      try destruct (csm0 !! id); try destruct (g !! id); cbn; reflexivity.
  - destruct u as [o0 mu0 db0 sm0 csm0 [w0 n0] crw0 lg0]. cbn.
    intros -> ->. destruct v; run_go; reflexivity.
Qed.

Lemma X2_unconstructed_panics_witness :
  Get main_go 1 UserRepo_zero = Panic ∧
  Store main_go 1 {| Name := "Ivan" |} UserRepo_zero = Panic.
Proof.
  split.
  - apply (X2_unconstructed_panics main_go UserRepo_zero 1 User_zero); reflexivity.
  - apply (X2_unconstructed_panics main_go UserRepo_zero 1 {| Name := "Ivan" |});
      reflexivity.
Defined.

(** ** What a call changes *)

Lemma Get_answer (v : variant) (u : UserRepo) (id : Z) :
  ready u ->
  ∃ u' tr, Get v id u = Ret (answer u id) u' tr ∧ ready u' ∧ db u' = db u ∧
           isCacheSM u' = isCacheSM u ∧
           (∀ id', id' ≠ id -> find (cache u') id' = find (cache u) id') ∧
           (∀ id', answer u' id' = answer u id').
Proof.
  intros H. rewrite (Get_ready v u id H). unfold answer.
  destruct (find (cache u) id) as [x|] eqn:Ec; [|destruct (find (db u) id) as [x|] eqn:Ed].
  - eexists _, _. split; [reflexivity|]. split; [exact H|]. repeat split; reflexivity.
  - eexists _, _. split; [reflexivity|].
    split; [by apply cache_put_ready|]. split; [apply db_cache_put|].
    split; [apply isCacheSM_cache_put|]. split.
    + intros id' Hne. rewrite find_cache_put by exact H.
      destruct (decide (id = id')); [congruence | reflexivity].
    + intros id'. rewrite db_cache_put, find_cache_put by exact H.
      destruct (decide (id = id')) as [<-|]; [by rewrite Ec, Ed | reflexivity].
  - eexists _, _. split; [reflexivity|]. split; [exact H|]. repeat split; reflexivity.
Qed.

Lemma Store_answer (v : variant) (u : UserRepo) (id : Z) (user : User) :
  ready u ->
  ∃ u' tr, Store v id user u = Ret tt u' tr ∧ ready u' ∧
           isCacheSM u' = isCacheSM u ∧
           answer u' id = (user, true) ∧
           (∀ id', id' ≠ id ->
              find (db u') id' = find (db u) id' ∧
              find (cache u') id' = find (cache u) id' ∧
              answer u' id' = answer u id').
Proof.
  intros H. rewrite (Store_ready v u id user H).
  pose proof (db_put_ready u id user H) as H1.
  eexists _, _. split; [reflexivity|]. split; [by apply cache_put_ready|].
  split; [by rewrite isCacheSM_cache_put|].
  assert (Hc : ∀ id', find (cache (cache_put id user (db_put id user u))) id' =
                      if decide (id = id') then Some user else find (cache u) id').
  { intros id'. rewrite find_cache_put by exact H1. by rewrite cache_db_put. }
  assert (Hd : ∀ id', find (db (cache_put id user (db_put id user u))) id' =
                      if decide (id = id') then Some user else find (db u) id').
  { intros id'. by rewrite db_cache_put, find_db_put. }
  split.
  - unfold answer. rewrite Hc. destruct (decide (id = id)); [reflexivity | congruence].
  - intros id' Hne. unfold answer. rewrite !Hc, !Hd.
    destruct (decide (id = id')); [congruence | auto].
Qed.

(** X3.  On a constructed repository [Get(K)] is a read as far as any later
    call can tell: it returns what the contents answer for [K], leaves the
    backing store as it was, touches no cache entry but that of [K], and
    changes the answer for no key.  [Store(K, R)] makes the answer for [K]
    be [(R, true)] and changes nothing under any other key, in the store or
    in the cache. *)
Theorem X3_calls_touch_one_key (v : variant) (u : UserRepo) (id : Z) (user : User) :
  ready u ->
  (∃ u' tr, Get v id u = Ret (answer u id) u' tr ∧ db u' = db u ∧
            (∀ id', id' ≠ id -> find (cache u') id' = find (cache u) id') ∧
            (∀ id', answer u' id' = answer u id')) ∧
  (∃ u' tr, Store v id user u = Ret tt u' tr ∧
            answer u' id = (user, true) ∧
            (∀ id', id' ≠ id ->
               find (db u') id' = find (db u) id' ∧
               find (cache u') id' = find (cache u) id' ∧
               answer u' id' = answer u id')).
Proof.
  intros H. split.
  - destruct (Get_answer v u id H) as (u' & tr & E & _ & Hd & _ & Hc & Ha).
    exists u', tr. auto.
  - destruct (Store_answer v u id user H) as (u' & tr & E & _ & _ & Ha & Hf).
    exists u', tr. auto.
Qed.

Lemma X3_calls_touch_one_key_witness :
  ∃ u' tr, Store part_001 1 {| Name := "Ivan" |} (fresh true) = Ret tt u' tr ∧
           answer u' 1 = ({| Name := "Ivan" |}, true) ∧
           answer u' 2 = answer (fresh true) 2.
Proof.
  destruct (X3_calls_touch_one_key part_001 (fresh true) 1 {| Name := "Ivan" |}
              (fresh_ready true)) as [_ (u' & tr & E & Ha & Hf)].
  exists u', tr. split; [exact E|]. split; [exact Ha|].
  apply (Hf 2). discriminate.
Defined.

(** X4.  After a [Get(K)] that found a record, the next [Get(K)] is a cache
    hit: the same record, the lookup and one log line as its only events
    (nothing on the backing store), and the repository unchanged.  A
    [Get(K)] that found nothing caches nothing: the repository is unchanged,
    the call did read the backing store, and so does the next one. *)
Theorem X4_hits_are_cached_misses_are_not (v : variant) (u : UserRepo) (id : Z)
    (x : User) (found : bool) (u1 : UserRepo) (tr1 : list event) :
  ready u ->
  Get v id u = Ret (x, found) u1 tr1 ->
  if found then
    Get v id u1 =
      Ret (x, true) u1 (lookup_events (isCacheSM u) id ++ [Println foundInCache])
  else
    u1 = u ∧ In (DbRead id) tr1 ∧ Get v id u1 = Ret (x, false) u1 tr1.
Proof.
  intros H E. pose proof E as E0. rewrite (Get_ready v u id H) in E.
  destruct (find (cache u) id) as [y|] eqn:Ec; [|destruct (find (db u) id) as [y|] eqn:Ed];
    injection E as <- <- <- <-.
  - rewrite (Get_ready v u id H), Ec. reflexivity.
  - pose proof (cache_put_ready u id y H) as H1.
    rewrite (Get_ready v _ id H1), find_cache_put by exact H.
    destruct (decide (id = id)); [|congruence].
    by rewrite isCacheSM_cache_put.
  - split; [reflexivity|]. split; [|exact E0].
    destruct v, (isCacheSM u); cbn; auto 10.
Qed.

Lemma X4_hits_are_cached_misses_are_not_witness :
  fresh false = fresh false ∧
  In (DbRead 9) [RwmRLock; RwmRead 9; RwmRUnlock; Println notFoundInCache;
                 DbLock; DbRead 9; DbUnlock; Println notFoundInDB] ∧
  Get main_go 9 (fresh false) =
    Ret (User_zero, false) (fresh false)
      [RwmRLock; RwmRead 9; RwmRUnlock; Println notFoundInCache;
       DbLock; DbRead 9; DbUnlock; Println notFoundInDB].
Proof.
  apply (X4_hits_are_cached_misses_are_not main_go (fresh false) 9 User_zero false
           (fresh false) _ (fresh_ready false)).
  reflexivity.
Defined.

(** ** Sequences of calls *)

Lemma exec_answer (v : variant) (x : op) (u : UserRepo) :
  ready u ->
  ∃ r u' tr, exec v x u = Ret r u' tr ∧ ready u' ∧
    r = match x with
        | OpGet id => ResGet (answer u id).1 (answer u id).2
        | OpStore _ _ => ResStore
        end ∧
    ∀ id', answer u' id' =
           match x with
           | OpStore id user => if decide (id = id') then (user, true) else answer u id'
           | OpGet _ => answer u id'
           end.
Proof.
  intros H. destruct x as [id | id user]; unfold exec, bind, ret.
  - destruct (Get_answer v u id H) as (u' & tr & E & H' & _ & _ & _ & Ha).
    rewrite E. destruct (answer u id) as [y ok]. cbn.
    eexists _, _, _. split; [reflexivity|]. auto.
  - destruct (Store_answer v u id user H) as (u' & tr & E & H' & _ & Ha & Hf).
    rewrite E. cbn. eexists _, _, _. split; [reflexivity|].
    split; [exact H'|]. split; [reflexivity|].
    intros id'. destruct (decide (id = id')) as [<-|Hne]; [exact Ha|].
    apply Hf. congruence.
Qed.

Lemma run_answer (v : variant) (xs : list op) (u : UserRepo) :
  ready u ->
  ∃ rs u1 tr1, run v xs u = Ret rs u1 tr1 ∧ ready u1 ∧
    ∀ id, answer u1 id = match last_store id xs with
                         | Some r => (r, true)
                         | None => answer u id
                         end.
Proof.
  revert u. induction xs as [|x xs IH]; intros u H.
  - exists [], u, []. auto.
  - destruct (exec_answer v x u H) as (r & u' & tr & E & H' & _ & Ha).
    destruct (IH u' H') as (rs & u1 & tr1 & E1 & H1 & Ha1).
    exists (r :: rs), u1, (tr ++ tr1 ++ []).
    split; [eapply run_cons; eassumption|]. split; [exact H1|].
    intros id. rewrite Ha1. cbn [last_store].
    destruct (last_store id xs) as [r0|]; [reflexivity|].
    rewrite Ha. destruct x as [id0 | id0 user0]; [reflexivity|].
    destruct (decide (id0 = id)); reflexivity.
Qed.

(** X5.  Last write wins.  After any sequence of [Get] and [Store] calls made
    one after another on a constructed repository, [Get(K)] returns the
    record of the last [Store(K, _)] of the sequence with [found = true];
    when the sequence has no [Store(K, _)], it returns what it would have
    returned before the sequence. *)
Theorem X5_last_store_wins (v : variant) (xs : list op) (u : UserRepo) (id : Z) :
  ready u ->
  ∃ rs u1 tr1 u2 tr2,
    run v xs u = Ret rs u1 tr1 ∧
    Get v id u1 =
      Ret (match last_store id xs with
           | Some r => (r, true)
           | None => answer u id
           end) u2 tr2.
Proof.
  intros H. destruct (run_answer v xs u H) as (rs & u1 & tr1 & E & H1 & Ha).
  destruct (Get_answer v u1 id H1) as (u2 & tr2 & E2 & _).
  exists rs, u1, tr1, u2, tr2. by rewrite <- Ha.
Qed.

Lemma X5_last_store_wins_witness :
  ∃ rs u1 tr1 u2 tr2,
    run main_go [OpStore 1 {| Name := "a" |}; OpGet 1; OpStore 1 {| Name := "b" |};
                 OpStore 2 {| Name := "c" |}] (fresh true) = Ret rs u1 tr1 ∧
    Get main_go 1 u1 = Ret ({| Name := "b" |}, true) u2 tr2.
Proof.
  apply (X5_last_store_wins main_go
           [OpStore 1 {| Name := "a" |}; OpGet 1; OpStore 1 {| Name := "b" |};
            OpStore 2 {| Name := "c" |}] (fresh true) 1 (fresh_ready true)).
Defined.

Lemma coherent_answer (u : UserRepo) (m : gmap Z User) (id : Z) :
  coherent u -> db u = Some m ->
  answer u id = match m !! id with Some r => (r, true) | None => (User_zero, false) end.
Proof.
  intros Hco Hd. unfold answer.
  destruct (find (cache u) id) as [x|] eqn:Ec.
  - apply Hco in Ec. rewrite Hd in Ec. cbn in Ec. by rewrite Ec.
  - rewrite Hd. reflexivity.
Qed.

Lemma exec_plain (v : variant) (x : op) (u : UserRepo) (m : gmap Z User) :
  ready u -> coherent u -> db u = Some m ->
  ∃ u' tr, exec v x u = Ret (plain_exec m x).1 u' tr ∧
           ready u' ∧ coherent u' ∧ db u' = Some (plain_exec m x).2.
Proof.
  intros H Hco Hd.
  destruct (exec_ready v x u H) as (r & u' & tr & E & H').
  pose proof (exec_coherent v x u r u' tr H Hco E) as Hco'.
  exists u', tr. destruct x as [id | id user]; unfold exec, bind, ret in *.
  - destruct (Get_answer v u id H) as (u2 & tr2 & E2 & _ & Hd2 & _).
    rewrite E2 in E |- *. rewrite (coherent_answer u m id Hco Hd) in E |- *.
    cbn [plain_exec fst snd].
    destruct (m !! id); cbn in E |- *; injection E as <- <- <-;
      (split; [reflexivity|]); (split; [exact H'|]); (split; [exact Hco'|]);
      congruence.
  - rewrite (Store_ready v u id user H) in E |- *. cbn in E |- *.
    injection E as <- <- <-. split; [reflexivity|]. split; [exact H'|].
    split; [exact Hco'|]. rewrite db_cache_put. unfold db_put. cbn.
    rewrite Hd. reflexivity.
Qed.

(** X6.  The cache is transparent.  On a constructed repository whose cache
    is within its store, a sequence of calls made one after another returns
    exactly what the same sequence returns on a plain map holding the
    store's contents (lookup for [Get], insert for [Store]), and leaves the
    store with the plain map's final contents; from a fresh repository the
    plain map starts empty. *)
Theorem X6_repository_refines_plain_map (v : variant) (xs : list op) (u : UserRepo)
    (m : gmap Z User) :
  ready u -> coherent u -> db u = Some m ->
  ∃ u' tr, run v xs u = Ret (plain_run m xs).1 u' tr ∧
           db u' = Some (plain_run m xs).2.
Proof.
  intros H Hco Hd.
  enough (∃ u' tr, run v xs u = Ret (plain_run m xs).1 u' tr ∧
                   db u' = Some (plain_run m xs).2 ∧ ready u' ∧ coherent u')
    as (u' & tr & E & Hd' & _) by eauto.
  revert u m H Hco Hd. induction xs as [|x xs IH]; intros u m H Hco Hd.
  - exists u, []. auto.
  - destruct (exec_plain v x u m H Hco Hd) as (u1 & tr1 & E1 & H1 & Hco1 & Hd1).
    destruct (IH u1 _ H1 Hco1 Hd1) as (u2 & tr2 & E2 & Hd2 & H2 & Hco2).
    exists u2, (tr1 ++ tr2 ++ []). cbn [plain_run].
    destruct (plain_exec m x) as [r m1]. cbn [fst snd] in *.
    destruct (plain_run m1 xs) as [rs m2]. cbn [fst snd] in *.
    split; [eapply run_cons; eassumption|]. auto.
Qed.

Lemma X6_repository_refines_plain_map_witness :
  ∃ u' tr,
    run part_000 [OpGet 1; OpStore 1 {| Name := "Ivan" |}; OpGet 1; OpGet 1]
      (fresh false) =
    Ret [ResGet User_zero false; ResStore; ResGet {| Name := "Ivan" |} true;
         ResGet {| Name := "Ivan" |} true] u' tr ∧
    db u' = Some (<[1 := {| Name := "Ivan" |}]> ∅).
Proof.
  destruct (X6_repository_refines_plain_map part_000
              [OpGet 1; OpStore 1 {| Name := "Ivan" |}; OpGet 1; OpGet 1]
              (fresh false) ∅ (fresh_ready false) (fresh_coherent false) eq_refl)
    as (u' & tr & E & Hd).
  assert (Hp : plain_run ∅ [OpGet 1; OpStore 1 {| Name := "Ivan" |}; OpGet 1; OpGet 1] =
               ([ResGet User_zero false; ResStore; ResGet {| Name := "Ivan" |} true;
                 ResGet {| Name := "Ivan" |} true],
                <[1 := {| Name := "Ivan" |}]> ∅))
    by (vm_compute; reflexivity).
  rewrite Hp in E, Hd. exists u', tr. split; assumption.
Defined.

(** ** Locks and logging within a call *)

(** X7.  On a constructed repository every access of [cacheRWM] by [Get] and
    [Store] is made under [u.rwm] (reads under [RLock], writes under
    [Lock]) and the lock is free again at return.  The cache that the
    strategy flag does not select is never touched: with the flag set, a
    call makes no event on [rwm] or [cacheRWM] and leaves [cacheRWM] as it
    was; with the flag clear, it makes no event on [cacheSM] and leaves
    [cacheSM] as it was. *)
Theorem X7_one_cache_under_its_lock (v : variant) (u : UserRepo) (id : Z) (user : User) :
  ready u ->
  ∃ r u1 tr1 u2 tr2,
    Get v id u = Ret r u1 tr1 ∧ Store v id user u = Ret tt u2 tr2 ∧
    rwm_guarded Free tr1 = true ∧ rwm_guarded Free tr2 = true ∧
    rwm u1 = RWMutex_zero ∧ rwm u2 = RWMutex_zero ∧
    if isCacheSM u then
      forallb (fun e => negb (on_rwm e)) (tr1 ++ tr2) = true ∧
      cacheRWM u1 = cacheRWM u ∧ cacheRWM u2 = cacheRWM u
    else
      forallb (fun e => negb (on_sm e)) (tr1 ++ tr2) = true ∧
      cacheSM u1 = cacheSM u ∧ cacheSM u2 = cacheSM u.
Proof.
  intros H. rewrite (Get_ready v u id H), (Store_ready v u id user H).
  open_ready u H. unfold cache, find, cache_put, db_put; cbn.
  destruct sm0; cbn;
    [destruct (csm0 !! id) as [?|] | destruct (crw0 !! id) as [?|]];
    try destruct (db0 !! id) as [?|];
    eexists _, _, _, _, _; (split; [reflexivity|]); (split; [reflexivity|]);
    destruct v; cbn; repeat split; reflexivity.
Qed.

Lemma X7_one_cache_under_its_lock_witness :
  ∃ r u1 tr1 u2 tr2,
    Get main_go 1 (fresh false) = Ret r u1 tr1 ∧
    Store main_go 1 {| Name := "Ivan" |} (fresh false) = Ret tt u2 tr2 ∧
    rwm_guarded Free tr1 = true ∧ rwm_guarded Free tr2 = true.
Proof.
  destruct (X7_one_cache_under_its_lock main_go (fresh false) 1 {| Name := "Ivan" |}
              (fresh_ready false))
    as (r & u1 & tr1 & u2 & tr2 & E1 & E2 & G1 & G2 & _).
  exists r, u1, tr1, u2, tr2. auto.
Defined.

(** X8.  On a constructed repository no line is logged while a lock is held,
    and every critical section of [Get] and [Store] holds exactly one map
    access.  [Store] logs nothing.  [Get] logs one line on a cache hit and
    two on a cache miss, the second telling whether the backing store had
    the record. *)
Theorem X8_short_sections_and_log (v : variant) (u : UserRepo) (id : Z) (user : User) :
  ready u ->
  ∃ r u1 tr1 u2 tr2,
    Get v id u = Ret r u1 tr1 ∧ Store v id user u = Ret tt u2 tr2 ∧
    short_sections 0 0 tr1 = true ∧ short_sections 0 0 tr2 = true ∧
    printed tr2 = [] ∧
    printed tr1 =
      match find (cache u) id with
      | Some _ => [foundInCache]
      | None => [notFoundInCache; if r.2 then foundInDB else notFoundInDB]
      end.
Proof.
  intros H. rewrite (Get_ready v u id H), (Store_ready v u id user H).
  destruct (find (cache u) id) as [x|]; [|destruct (find (db u) id) as [y|]];
    eexists _, _, _, _, _; (split; [reflexivity|]); (split; [reflexivity|]);
    destruct v, (isCacheSM u); cbn; repeat split; reflexivity.
Qed.

Lemma X8_short_sections_and_log_witness :
  ∃ r u1 tr1 u2 tr2,
    Get part_001 1 (fresh true) = Ret r u1 tr1 ∧
    Store part_001 1 {| Name := "Ivan" |} (fresh true) = Ret tt u2 tr2 ∧
    short_sections 0 0 tr1 = true ∧ short_sections 0 0 tr2 = true ∧
    printed tr2 = [].
Proof.
  destruct (X8_short_sections_and_log part_001 (fresh true) 1 {| Name := "Ivan" |}
              (fresh_ready true))
    as (r & u1 & tr1 & u2 & tr2 & E1 & E2 & G1 & G2 & P2 & _).
  exists r, u1, tr1, u2, tr2. auto.
Defined.

(** ** The load generator *)

Lemma length_concat_map {A B} (f : A -> list B) (n : nat) (l : list A) :
  (∀ x, length (f x) = n) -> length (concat (map f l)) = (length l * n)%nat.
Proof.
  intros Hf. induction l as [|x l IH]; [reflexivity|].
  cbn. rewrite length_app, Hf, IH. reflexivity.
Qed.

Lemma length_worker (scale : Scale) (id : Z) :
  length (worker scale id) = Z.to_nat (Z.quot (totalOps scale) (concurrency scale)).
Proof. unfold worker. rewrite length_map. apply length_seqZ. Qed.

Lemma worker_lookup (scale : Scale) (id : Z) (j : nat) (x : op) :
  worker scale id !! j = Some x ->
  Z.of_nat j < Z.quot (totalOps scale) (concurrency scale) ∧
  x = (if is_read (Z.of_nat j) (Z.quot (totalOps scale) (concurrency scale))
            (readRatio scale)
       then OpGet id
       else OpStore id {| Name := Sprintf_User (Z.of_nat j) |}).
Proof.
  unfold worker.
  set (g := fun j0 : Z => if is_read j0 _ _ then _ else _).
  change (map g ?l) with (g <$> l).
  rewrite list_lookup_fmap. intros E.
  destruct (seqZ 0 _ !! j) as [k|] eqn:Ek; [|discriminate].
  apply lookup_seqZ in Ek as [-> Hlt]. cbn in E. injection E as <-.
  split; [lia|]. unfold g. rewrite Z.add_0_l. reflexivity.
Qed.

(** X9.  A worker of [RunScenario] makes exactly [totalOps/concurrency]
    calls (Go's truncating quotient), all of them on its own key; call
    number [j] is [Get(id)] or [Store(id, User{"User-<j>"})].  A load
    therefore makes [concurrency * (totalOps/concurrency)] calls in all:
    when [totalOps] is not a multiple of [concurrency], the remainder is
    not run, so fewer than [concurrency] calls are left out. *)
Theorem X9_worker_shape (scale : Scale) (id : Z) :
  length (worker scale id) = Z.to_nat (Z.quot (totalOps scale) (concurrency scale)) ∧
  (∀ (j : nat) (x : op), worker scale id !! j = Some x ->
     x = OpGet id ∨ x = OpStore id {| Name := "User-" +:+ pretty (Z.of_nat j) |}) ∧
  length (concat (workers scale)) =
    (Z.to_nat (concurrency scale) *
     Z.to_nat (Z.quot (totalOps scale) (concurrency scale)))%nat ∧
  (0 < concurrency scale -> 0 <= totalOps scale ->
     totalOps scale - concurrency scale < Z.of_nat (length (concat (workers scale)))
       <= totalOps scale).
Proof.
  assert (Hlen : length (concat (workers scale)) =
    (Z.to_nat (concurrency scale) *
     Z.to_nat (Z.quot (totalOps scale) (concurrency scale)))%nat).
  { unfold workers. rewrite (length_concat_map _ _ _ (length_worker scale)).
    by rewrite length_seqZ. }
  split; [apply length_worker|]. split; [|split; [exact Hlen|]].
  - intros j x E. apply worker_lookup in E as [_ ->].
    destruct (is_read _ _ _); [left | right]; reflexivity.
  - intros Hc Ht. rewrite Hlen.
    rewrite Z.quot_div_nonneg by lia.
    pose proof (Z.div_pos (totalOps scale) (concurrency scale) Ht Hc) as Hq.
    rewrite Nat2Z.inj_mul, !Z2Nat.id by lia.
    pose proof (Z.mul_div_le (totalOps scale) (concurrency scale) Hc).
    pose proof (Z.mul_succ_div_gt (totalOps scale) (concurrency scale) Hc).
    lia.
Qed.

Lemma X9_worker_shape_witness :
  10 - 4 < Z.of_nat (length (concat (workers (mkScale "s" 10 4 0.5%float 0.5%float))))
    <= 10.
Proof.
  apply (X9_worker_shape (mkScale "s" 10 4 0.5%float 0.5%float) 0); cbn; lia.
Defined.

(** X10.  Run one goroutine after the other, every load of the program
    returns on a freshly created application: [RunScenario] for every scale
    whose concurrency is not negative (on a negative one [wg.Add] panics),
    and the three loads of [part_001].  No call of a load panics and none
    blocks on a lock. *)
Theorem X10_loads_in_turn_return (v : variant) (b : bool) (scale : Scale) :
  RunScenario (in_turn v) (fresh_app b) scale =
    (if concurrency scale <? 0 then None else Some (tt, [Loaded (fresh_app b)])) ∧
  ScenarioHeavyRead (in_turn v) (fresh_app b) = Some (tt, [Loaded (fresh_app b)]) ∧
  ScenarioHeavyWrite (in_turn v) (fresh_app b) = Some (tt, [Loaded (fresh_app b)]) ∧
  ScenarioMixedReadWrite (in_turn v) (fresh_app b) = Some (tt, [Loaded (fresh_app b)]).
Proof.
  unfold RunScenario, ScenarioHeavyRead, ScenarioHeavyWrite, ScenarioMixedReadWrite, load.
  repeat split;
    try destruct (concurrency scale <? 0); try reflexivity;
    match goal with
    | |- context [in_turn v ?ws (fresh_app b)] =>
        destruct (in_turn_returns v ws (fresh_app b) (fresh_app_ready b)) as (a' & tr & ->)
    end; reflexivity.
Qed.

Lemma last_store_app (id : Z) (xs ys : list op) :
  last_store id (xs ++ ys) =
  match last_store id ys with
  | Some r => Some r
  | None => last_store id xs
  end.
Proof.
  induction xs as [|x xs IH]; cbn [app last_store].
  - destruct (last_store id ys); reflexivity.
  - rewrite IH. destruct (last_store id ys); reflexivity.
Qed.

Lemma last_store_other_key (id : Z) (xs : list op) :
  Forall (fun x => stores_to id x = false) xs -> last_store id xs = None.
Proof.
  induction 1 as [|x xs Hx _ IH]; [reflexivity|].
  cbn [last_store]. rewrite IH. destruct x as [|id' r]; [reflexivity|].
  cbn in Hx. apply bool_decide_eq_false in Hx. destruct (decide (id' = id)); [contradiction | reflexivity].
Qed.

Lemma worker_other_key (scale : Scale) (id id' : Z) :
  id' ≠ id -> Forall (fun x => stores_to id x = false) (worker scale id').
Proof.
  intros Hne. unfold worker. apply Forall_forall. intros x Hx.
  apply list_elem_of_In, in_map_iff in Hx as (j & <- & _).
  destruct (is_read _ _ _); cbn; [reflexivity|].
  apply bool_decide_eq_false. exact Hne.
Qed.

Lemma last_store_workers (scale : Scale) (id : Z) (ids : list Z) :
  NoDup ids -> id ∈ ids ->
  last_store id (concat (map (worker scale) ids)) = last_store id (worker scale id).
Proof.
  induction 1 as [|i ids Hi Hnd IH]; intros Hin; [by apply elem_of_nil in Hin|].
  cbn [map concat]. rewrite last_store_app.
  apply elem_of_cons in Hin as [<- | Hin].
  - rewrite (last_store_other_key id (concat (map (worker scale) ids))); [reflexivity|].
    apply Forall_concat, Forall_forall. intros l Hl.
    apply list_elem_of_In, in_map_iff in Hl as (i' & <- & Hi').
    apply worker_other_key. intros ->. apply Hi. by apply list_elem_of_In.
  - rewrite (IH Hin).
    destruct (last_store id (worker scale id)) eqn:E; [reflexivity|].
    apply last_store_other_key, worker_other_key. intros ->. contradiction.
Qed.

Lemma last_store_worker (scale : Scale) (id : Z) :
  let q := Z.quot (totalOps scale) (concurrency scale) in
  0 < q -> is_read (q - 1) q (readRatio scale) = false ->
  last_store id (worker scale id) = Some {| Name := Sprintf_User (q - 1) |}.
Proof.
  intros q Hq Hw. unfold worker. fold q.
  assert (Es : seqZ 0 q = seqZ 0 (q - 1) ++ [q - 1]).
  { replace q with ((q - 1) + 1) at 1 by lia.
    rewrite seqZ_app by lia. reflexivity. }
  rewrite Es, map_app, last_store_app. cbn [map last_store].
  rewrite Hw. destruct (decide (id = id)); [reflexivity | contradiction].
Qed.

Lemma facade_Get (v : variant) (a : App) (u : UserRepo) (id : Z) r u' tr :
  UserS a = {| service := Some {| repo := Some u |} |} ->
  Get v id u = Ret r u' tr ->
  ∃ a', on_UserS (UserServer_Get v id) a = Ret r a' tr ∧
        UserS a' = {| service := Some {| repo := Some u' |} |}.
Proof.
  intros Hu E. unfold on_UserS, UserServer_Get, UserService_Get, through.
  rewrite Hu. cbn [service repo]. rewrite E. eexists. split; reflexivity.
Qed.

Lemma facade_Store (v : variant) (a : App) (u : UserRepo) (id : Z) (user : User) r u' tr :
  UserS a = {| service := Some {| repo := Some u |} |} ->
  Store v id user u = Ret r u' tr ->
  ∃ a', on_UserS (UserServer_Store v id user) a = Ret r a' tr ∧
        UserS a' = {| service := Some {| repo := Some u' |} |}.
Proof.
  intros Hu E. unfold on_UserS, UserServer_Store, UserService_Store, through.
  rewrite Hu. cbn [service repo]. rewrite E. eexists. split; reflexivity.
Qed.

Lemma app_run_run (v : variant) (xs : list op) (a : App) (u : UserRepo) rs u' tr :
  UserS a = {| service := Some {| repo := Some u |} |} ->
  run v xs u = Ret rs u' tr ->
  ∃ a' tr', app_run v xs a = Ret tt a' tr' ∧
            UserS a' = {| service := Some {| repo := Some u' |} |}.
Proof.
  revert a u rs tr. induction xs as [|x xs IH]; intros a u rs tr Hu E.
  - cbn in E. injection E as <- <- <-. exists a, []. split; [reflexivity | exact Hu].
  - cbn in E. unfold bind in E.
    destruct (exec v x u) as [r u1 t1| |] eqn:E1; try discriminate.
    destruct (run v xs u1) as [rs2 u2 t2| |] eqn:E2; try discriminate.
    cbn in E. injection E as <- <- <-.
    assert (∃ r' a1 t1', app_exec v x a = Ret r' a1 t1' ∧
              UserS a1 = {| service := Some {| repo := Some u1 |} |}) as (r' & a1 & t1' & Ea & Hu1).
    { destruct x as [id | id user]; unfold exec, app_exec, bind, ret in *.
      - destruct (Get v id u) as [[y ok] u0 t0| |] eqn:EG; try discriminate.
        cbn in E1. injection E1 as <- <- <-.
        destruct (facade_Get v a u id _ _ _ Hu EG) as (a1 & -> & Hu1).
        cbn. eauto.
      - destruct (Store v id user u) as [[] u0 t0| |] eqn:ES; try discriminate.
        cbn in E1. injection E1 as <- <- <-.
        destruct (facade_Store v a u id user _ _ _ Hu ES) as (a1 & -> & Hu1).
        cbn. eauto. }
    destruct (IH a1 u1 rs2 t2 Hu1 E2) as (a2 & t2' & Ea2 & Hu2).
    exists a2, (t1' ++ t2'). split; [|exact Hu2].
    cbn. unfold bind. rewrite Ea, Ea2. reflexivity.
Qed.

(** X11.  A load and then a read.  Take a scale whose quota
    [q = totalOps/concurrency] is positive and whose last operation is a
    write (the test [float64(q-1)/float64(q) < readRatio] fails).  After
    [RunScenario]'s goroutines have run one after the other on a freshly
    created application, [Get(id)] through the facade returns, for every
    worker index [0 <= id < concurrency], the record ["User-<q-1>"] that
    worker [id] wrote last, with [found = true]. *)
Theorem X11_load_then_Get (v : variant) (b : bool) (scale : Scale) (id : Z) :
  let q := Z.quot (totalOps scale) (concurrency scale) in
  0 <= id < concurrency scale ->
  0 < q ->
  is_read (q - 1) q (readRatio scale) = false ->
  ∃ a1 tr1 a2 tr2,
    in_turn v (workers scale) (fresh_app b) = Ret tt a1 tr1 ∧
    on_UserS (UserServer_Get v id) a1 =
      Ret ({| Name := "User-" +:+ pretty (q - 1) |}, true) a2 tr2.
Proof.
  intros q Hid Hq Hw.
  destruct (run_answer v (concat (workers scale)) (fresh b) (fresh_ready b))
    as (rs & u1 & t1 & E & H1 & Ha).
  destruct (app_run_run v _ (fresh_app b) (fresh b) rs u1 t1 eq_refl E)
    as (a1 & tr1 & Ea & Hu1).
  destruct (Get_answer v u1 id H1) as (u2 & t2 & EG & _).
  destruct (facade_Get v a1 u1 id _ _ _ Hu1 EG) as (a2 & Ea2 & _).
  exists a1, tr1, a2, t2. split; [exact Ea|].
  rewrite Ea2, Ha. unfold workers.
  rewrite (last_store_workers scale id (seqZ 0 (concurrency scale))).
  - rewrite (last_store_worker scale id Hq Hw). reflexivity.
  - apply NoDup_seqZ.
  - apply elem_of_seqZ. lia.
Qed.

Lemma X11_load_then_Get_witness :
  ∃ a1 tr1 a2 tr2,
    in_turn main_go (workers (mkScale "example" 8 4 0.5%float 0.5%float))
      (fresh_app true) = Ret tt a1 tr1 ∧
    on_UserS (UserServer_Get main_go 0) a1 =
      Ret ({| Name := "User-" +:+ pretty (Z.quot 8 4 - 1) |}, true) a2 tr2.
Proof.
  apply (X11_load_then_Get main_go true (mkScale "example" 8 4 0.5%float 0.5%float) 0).
  - cbn [concurrency]. lia.
  - change (0 < 2). lia.
  - vm_compute. reflexivity.
Defined.

(** ** Which paths wait for the store lock *)

(** X12.  In [main.go] and [part_001], on a repository that is constructed
    but whose [dbMutex] is held by someone else, a [Get] that hits the cache
    still returns the cached record at once, with no event on the store or
    its lock: only a [Get] that misses the cache waits for the lock, and so
    does every [Store].  (With one thread of control the wait never ends.)
    [part_000] has no such lock and its [Store] goes through. *)
Theorem X12_hits_do_not_wait (v : variant) (u : UserRepo) (id : Z) (user : User) :
  ready (set_dbMutex false u) -> dbMutex u = true ->
  match find (cache u) id with
  | Some x =>
      Get v id u =
        Ret (x, true) u (lookup_events (isCacheSM u) id ++ [Println foundInCache])
  | None =>
      match v with
      | main_go | part_001 => Get v id u = Blocked
      | part_000 => ∃ r u' tr, Get v id u = Ret r u' tr
      end
  end ∧
  match v with
  | main_go | part_001 => Store v id user u = Blocked
  | part_000 => ∃ u' tr, Store v id user u = Ret tt u' tr
  end.
Proof.
  intros H Hm.
  destruct u as [o0 mu0 [db0|] sm0 csm0 rw0 [crw0|] [lg0|]];
    destruct H as (_ & Hrw & [? Hdb] & [? Hc] & [? Hl]);
    cbn in Hm, Hrw, Hdb, Hc, Hl; try discriminate; subst mu0 rw0.
  unfold cache, find; cbn. split.
  - destruct sm0; cbn;
      [destruct (csm0 !! id) as [?|] eqn:E | destruct (crw0 !! id) as [?|] eqn:E];
      destruct v; run_go; rewrite ?E; cbn; try reflexivity;
      destruct (db0 !! id); cbn; eauto.
  - destruct v, sm0; run_go; eauto.
Qed.

Lemma X12_hits_do_not_wait_witness :
  Get main_go 1 (set_dbMutex true (fresh true)) = Blocked ∧
  Store main_go 1 {| Name := "Ivan" |} (set_dbMutex true (fresh true)) = Blocked.
Proof.
  apply (X12_hits_do_not_wait main_go (set_dbMutex true (fresh true)) 1
           {| Name := "Ivan" |}).
  - apply (fresh_ready true).
  - reflexivity.
Defined.
